(** * prefect-slurm: the SLURM backend, the PID codec and the job monitor

    A shallow embedding of [src/prefect_slurm/slurm.py]:
    - [Py]: the Python built-ins the module relies on ([str.split],
      [str.strip], [int], [str], [" ".join], exceptions);
    - [CLIBasedSlurmBackend]: command rendering, [submit], [kill], [status];
    - [SlurmJob]: [_get_infrastructure_pid], [_parse_infrastructure_pid]
      and the polling loop [_watch_job];
    - [PyDict]: dicts as the module uses them (item assignment, merging,
      comprehension);
    - [SlurmJobBlock]: the methods of [SlurmJob] that read the block's
      fields: [_get_environment_variables], [_submit_script], [kill]
      and [run].

    Python [str] values are modelled as [string], one [ascii] per code
    point, which covers the code points below 256. *)

From Stdlib Require Import ZArith QArith Lqa Lia List Bool Ascii String.
From Stdlib Require Import Decimal DecimalString DecimalPos DecimalZ.
Import ListNotations.

Close Scope Q_scope.
Open Scope Z_scope.
Open Scope string_scope.

(* ================================================================== *)
(** ** Python built-ins *)

Module Py.

(** Exceptions. [ValueError] is what [int] and tuple unpacking raise;
    [RemoteError] stands for whatever the ssh layer raises (timeouts,
    connection failures), tagged with the exception's name. *)
Inductive exn : Type :=
| ValueError
| RemoteError (name : string).

Definition result (A : Type) : Type := (exn + A)%type.

Definition ret {A} (a : A) : result A := inr a.
Definition raise {A} (e : exn) : result A := inl e.

Definition bind {A B} (c : result A) (k : A -> result B) : result B :=
  match c with
  | inl e => inl e
  | inr a => k a
  end.

(** [try: body / except Exception: handler] *)
Definition try_except {A} (body : result A) (handler : exn -> result A)
  : result A :=
  match body with
  | inl e => handler e
  | inr a => inr a
  end.

Definition raises {A} (c : result A) : bool :=
  match c with inl _ => true | inr _ => false end.

(** *** Whitespace *)

(** [str.isspace] on one code point below 256: TAB..CR, FS..US, space,
    NEL and NBSP.  [str.strip()] and [str.split()] use this class. *)
Definition isspace (c : ascii) : bool :=
  let n := N_of_ascii c in
  (((9 <=? n) && (n <=? 13)) || ((28 <=? n) && (n <=? 32))
   || (n =? 133) || (n =? 160))%N.

(** The whitespace [int] skips around a literal: the C-locale class
    (TAB..CR and space) and, below 256, the non-ASCII spaces NEL and
    NBSP.  The separators FS..US are not part of it. *)
Definition int_isspace (c : ascii) : bool :=
  let n := N_of_ascii c in
  (((9 <=? n) && (n <=? 13)) || (n =? 32) || (n =? 133) || (n =? 160))%N.

Definition is_empty (s : string) : bool :=
  match s with EmptyString => true | String _ _ => false end.

Fixpoint lstrip_by (p : ascii -> bool) (s : string) : string :=
  match s with
  | EmptyString => EmptyString
  | String c r => if p c then lstrip_by p r else s
  end.

Fixpoint rstrip_by (p : ascii -> bool) (s : string) : string :=
  match s with
  | EmptyString => EmptyString
  | String c r =>
      let r' := rstrip_by p r in
      if p c && is_empty r' then EmptyString else String c r'
  end.

Definition strip_by (p : ascii -> bool) (s : string) : string :=
  rstrip_by p (lstrip_by p s).

(** [s.strip()] *)
Definition strip (s : string) : string := strip_by isspace s.

(** *** Splitting and joining *)

Definition cons_word (w : string) (ws : list string) : list string :=
  if is_empty w then ws else w :: ws.

(** [scan s] is the whitespace-free prefix of [s] together with the
    words of what follows it. *)
Fixpoint scan (s : string) : string * list string :=
  match s with
  | EmptyString => (EmptyString, [])
  | String c r =>
      let (w, ws) := scan r in
      if isspace c then (EmptyString, cons_word w ws)
      else (String c w, ws)
  end.

(** [s.split()]: the maximal runs of non-whitespace, in order. *)
Definition split (s : string) : list string :=
  let (w, ws) := scan s in cons_word w ws.

(** [fields sep s] is the first [sep]-delimited field of [s] and the
    fields after it. *)
Fixpoint fields (sep : ascii) (s : string) : string * list string :=
  match s with
  | EmptyString => (EmptyString, [])
  | String c r =>
      let (f, fs) := fields sep r in
      if Ascii.eqb c sep then (EmptyString, f :: fs)
      else (String c f, fs)
  end.

(** [s.split(sep)] for a one-character separator: one more field than
    there are separators, empty fields kept. *)
Definition split_on (sep : ascii) (s : string) : list string :=
  let (f, fs) := fields sep s in f :: fs.

(** [sep.join(parts)] *)
Definition join (sep : string) (parts : list string) : string :=
  String.concat sep parts.

(** *** Integers *)

(** The value of a decimal digit, [None] for any other character. *)
Definition digit_of (c : ascii) : option Z :=
  let n := N_of_ascii c in
  if ((48 <=? n) && (n <=? 57))%N then Some (Z.of_N n - 48) else None.

(** The rest of a decimal literal once a digit has been read: digits,
    each optionally preceded by one underscore. *)
Fixpoint int_digits (s : string) (acc : Z) : option Z :=
  match s with
  | EmptyString => Some acc
  | String c r =>
      match digit_of c with
      | Some d => int_digits r (10 * acc + d)
      | None =>
          if Ascii.eqb c "_" then
            match r with
            | String c' r' =>
                match digit_of c' with
                | Some d => int_digits r' (10 * acc + d)
                | None => None
                end
            | EmptyString => None
            end
          else None
      end
  end.

(** An unsigned literal: a digit, then [int_digits]. *)
Definition int_unsigned (s : string) : option Z :=
  match s with
  | String c r =>
      match digit_of c with
      | Some d => int_digits r d
      | None => None
      end
  | EmptyString => None
  end.

(** An optional sign, then the unsigned literal. *)
Definition int_signed (s : string) : option Z :=
  match s with
  | String c r =>
      if Ascii.eqb c "+" then int_unsigned r
      else if Ascii.eqb c "-" then option_map Z.opp (int_unsigned r)
      else int_unsigned s
  | EmptyString => None
  end.

(** [sys.int_info.default_max_str_digits]: the most digits [int] reads
    and [str] writes. *)
Definition max_str_digits : Z := 4300.

(** The number of decimal digits in [s]; signs, underscores and
    whitespace do not count, leading zeros do. *)
Fixpoint count_digits (s : string) : Z :=
  match s with
  | EmptyString => 0
  | String c r =>
      match digit_of c with
      | Some _ => 1 + count_digits r
      | None => count_digits r
      end
  end.

(** [int(s)] in base 10: surrounding whitespace skipped, an optional sign,
    then the digits; [ValueError] otherwise, and also when there are more
    than [max_str_digits] digits. *)
Definition int (s : string) : result Z :=
  let literal := strip_by int_isspace s in
  match int_signed literal with
  | Some n =>
      if (max_str_digits <? count_digits literal)%Z then raise ValueError
      else ret n
  | None => raise ValueError
  end.

(** The decimal digits of [n], behind a minus sign when [n] is
    negative. *)
Definition decimal (n : Z) : string := NilZero.string_of_int (Z.to_int n).

(** [str(n)], which is also how an f-string renders [{n}]: the decimal
    rendering, or [ValueError] when it has more than [max_str_digits]
    digits. *)
Definition str (n : Z) : result string :=
  let digits := decimal n in
  if (max_str_digits <? count_digits digits)%Z then raise ValueError
  else ret digits.

End Py.

Notation "x <- c ;; k" := (Py.bind c (fun x => k))
  (at level 61, c at next level, right associativity).

(* ================================================================== *)
(** ** Data model *)

(** [class SlurmJobStatus(Enum)] *)
Inductive SlurmJobStatus : Type :=
| COMPLETED
| RUNNING
| FAILED
| PREEMPTED
| PENDING
| UNDEFINED
| UNKNOWN.

Definition SlurmJobStatus_eqb (a b : SlurmJobStatus) : bool :=
  match a, b with
  | COMPLETED, COMPLETED | RUNNING, RUNNING | FAILED, FAILED
  | PREEMPTED, PREEMPTED | PENDING, PENDING | UNDEFINED, UNDEFINED
  | UNKNOWN, UNKNOWN => true
  | _, _ => false
  end.

(** What the ssh layer hands back for one remote command
    ([asyncssh.SSHCompletedProcess], the fields the module reads). *)
Record SSHCompletedProcess : Type := {
  exit_status : Z;
  stdout : string;
  stderr : string
}.

(* ================================================================== *)
(** ** class CLIBasedSlurmBackend *)

Module CLIBasedSlurmBackend.

(** [f"--{k}" if v is None else f"--{k}={v}"] *)
Definition render_arg (kv : string * option string) : string :=
  match kv with
  | (k, None) => "--" ++ k
  | (k, Some v) => "--" ++ k ++ "=" ++ v
  end.

(** [slurm_kwargs] is the dict's [items()]: its pairs in insertion order. *)
Definition _submit_command (slurm_kwargs : list (string * option string))
  : string :=
  let args := map render_arg slurm_kwargs in
  let cmd := Py.join " " (["sbatch"; "--parsable"] ++ args) in
  cmd.

Definition _kill_command (jobid : Z) : Py.result string :=
  rendered <- Py.str jobid ;;
  Py.ret ("scancel $" ++ rendered).

Definition _status_command (jobid : Z) : Py.result string :=
  rendered <- Py.str jobid ;;
  Py.ret ("squeue --job=" ++ rendered
          ++ " --Format=State,exit_code --noheader").

(** The chain of [if status == ...] inside [status]. *)
Definition status_of_token (status : string) : SlurmJobStatus :=
  if String.eqb status "PENDING" then PENDING
  else if String.eqb status "COMPLETED" then COMPLETED
  else if String.eqb status "PREEMPTED" then PREEMPTED
  else if String.eqb status "FAILED" then FAILED
  else if String.eqb status "RUNNING" then RUNNING
  else UNKNOWN.

(** The body of the [try] block of [status]: the first two words of
    stdout, stripped, unpacked into [status, exit_code]. *)
Definition parse_status (out : string) : Py.result SlurmJobStatus :=
  match map Py.strip (firstn 2 (Py.split out)) with
  | [status; exit_code] => Py.ret (status_of_token status)
  | _ => Py.raise Py.ValueError
  end.

(** [status] from the point where the remote command has returned. *)
Definition status_of_result (result : SSHCompletedProcess)
  : Py.result SlurmJobStatus :=
  if negb (exit_status result =? 0)%Z then Py.ret UNDEFINED
  else Py.try_except (parse_status (stdout result))
                     (fun _ => Py.ret UNDEFINED).

(** [submit] from the point where the remote command has returned. *)
Definition jobid_of_result (result : SSHCompletedProcess) : Py.result Z :=
  Py.int (Py.strip (stdout result)).

Section Backend.

(** [c.run(cmd, stdin=in_stream, timeout=grace_seconds)] over a fresh
    connection: the remote executor, which either raises or returns a
    completed process. *)
Variable run : string -> option string -> Z -> Py.result SSHCompletedProcess.

Definition _run_remote_command (cmd : string) (in_stream : option string)
    (grace_seconds : Z) : Py.result SSHCompletedProcess :=
  result <- run cmd in_stream grace_seconds ;;
  Py.ret result.

Definition submit (slurm_kwargs : list (string * option string))
    (run_script : option string) (grace_seconds : Z) : Py.result Z :=
  result <- _run_remote_command (_submit_command slurm_kwargs)
                                run_script grace_seconds ;;
  jobid_of_result result.

Definition kill (jobid : Z) (grace_seconds : Z) : Py.result unit :=
  cmd <- _kill_command jobid ;;
  _ <- _run_remote_command cmd None grace_seconds ;;
  Py.ret tt.

Definition status (jobid : Z) (grace_seconds : Z)
  : Py.result SlurmJobStatus :=
  cmd <- _status_command jobid ;;
  result <- _run_remote_command cmd None grace_seconds ;;
  status_of_result result.

End Backend.

End CLIBasedSlurmBackend.

(* ================================================================== *)
(** ** class SlurmJob *)

Module SlurmJob.

(** *** The PID codec *)

Definition _get_infrastructure_pid (host : string) (jobid : Z)
  : Py.result string :=
  rendered <- Py.str jobid ;;
  let pid := host ++ ":" ++ rendered in
  Py.ret pid.

Definition _parse_infrastructure_pid (infrastructure_pid : string)
  : Py.result (string * Z) :=
  match Py.split_on ":" infrastructure_pid with
  | [hostname; pid] =>
      n <- Py.int pid ;;
      Py.ret (hostname, n)
  | _ => Py.raise Py.ValueError
  end.

(** *** The monitor

    [_watch_job] talks to three things: the backend, polled for the job's
    status; the wall clock; and the logger.  They are modelled as a world
    that is threaded through the loop.  [time.time()] yields seconds as a
    float; here the clock is an exact rational.  Time passes only where
    the coroutine awaits: during a status query and during a sleep.
    The job id is a label here: it is handed to the backend and to the
    logger as it is, and an event records the call and the id, not the
    text of the line. *)

Inductive event : Type :=
| Polled (jobid : Z) (status : SlurmJobStatus)
| LogError (jobid : Z)
| LogInfo (jobid : Z)
| LogWarn (jobid : Z)
| Slept (seconds : Z).

Record world : Type := {
  now : Q;
  trace : list event
}.

Definition emit (e : event) (w : world) : world :=
  {| now := now w; trace := trace w ++ [e] |}.

(** One answer of the backend: the status it reports and the time the
    query took (which also absorbs any oversleeping before it). *)
Definition answer : Type := (SlurmJobStatus * Q)%type.

(** [await backend.status(jobid)] answered by [a]. *)
Definition backend_status (jobid : Z) (a : answer) (w : world)
  : SlurmJobStatus * world :=
  (fst a, emit (Polled jobid (fst a))
               {| now := (now w + snd a)%Q; trace := trace w |}).

(** [time.time()] *)
Definition time (w : world) : Q := now w.

(** [await anyio.sleep(seconds)] *)
Definition sleep (seconds : Z) (w : world) : world :=
  emit (Slept seconds)
       {| now := (now w + inject_Z (Z.max 0 seconds))%Q; trace := trace w |}.

Definition Qltb (x y : Q) : bool := negb (Qle_bool y x).

(** The two loop variables. *)
Record flags : Type := {
  completed : bool;
  submitted : bool
}.

(** How one pass through the loop body ends: at the next iteration
    ([continue], or the end of the body) or at a [return]. *)
Inductive control : Type :=
| Next (f : flags)
| Return (code : Z).

(** The body of [while not completed], after the status has been read. *)
Definition iteration (jobid : Z) (polling_seconds : Z) (startWatching : Q)
    (f : flags) (status : SlurmJobStatus) (w : world) : control * world :=
  if SlurmJobStatus_eqb status UNDEFINED && negb (submitted f) then
    let w := emit (LogError jobid) w in
    if Qltb (time w - startWatching)%Q (inject_Z polling_seconds) then
      (Next f, w)
    else
      (Return (-1), w)
  else
    let f := {| completed := completed f; submitted := true |} in
    if SlurmJobStatus_eqb status UNDEFINED
       || SlurmJobStatus_eqb status COMPLETED then
      (Return 0, emit (LogInfo jobid) w)
    else if SlurmJobStatus_eqb status FAILED then
      (Return (-1), emit (LogWarn jobid) w)
    else
      (Next f, sleep polling_seconds w).

(** Where a run of the monitor stands once the scripted answers are used
    up: it has returned a code, or it is still polling. *)
Inductive outcome : Type :=
| Returned (code : Z)
| StillPolling (f : flags).

(** [while not completed: ...], one answer of the script per iteration,
    and the [return -1] after the loop. *)
Fixpoint loop (jobid : Z) (polling_seconds : Z) (startWatching : Q)
    (f : flags) (answers : list answer) (w : world) : outcome * world :=
  if completed f then (Returned (-1), w)
  else
    match answers with
    | [] => (StillPolling f, w)
    | a :: rest =>
        let (status, w1) := backend_status jobid a w in
        match iteration jobid polling_seconds startWatching f status w1 with
        | (Return code, w2) => (Returned code, w2)
        | (Next f', w2) => loop jobid polling_seconds startWatching f' rest w2
        end
    end.

Definition _watch_job (answers : list answer) (jobid : Z)
    (polling_seconds : Z) (w : world) : outcome * world :=
  let f := {| completed := false; submitted := false |} in
  let startWatching := time w in
  loop jobid polling_seconds startWatching f answers w.

(** The number of [Slept] events of a trace. *)
Definition sleeps (t : list event) : nat :=
  List.length (filter (fun e => match e with Slept _ => true | _ => false end) t).

End SlurmJob.

(* ================================================================== *)
(** ** Notions the statements are phrased with *)

Module Spec.

(** Every character of [s] satisfies [p]. *)
Fixpoint all_chars (p : ascii -> bool) (s : string) : bool :=
  match s with
  | EmptyString => true
  | String c r => p c && all_chars p r
  end.

(** [s.count(c)]: how often the character [c] occurs in [s]. *)
Fixpoint count (c : ascii) (s : string) : nat :=
  match s with
  | EmptyString => O
  | String c' r => if Ascii.eqb c' c then S (count c r) else count c r
  end.

(** The value of the digits [d], most significant first, read after a
    prefix worth [acc]. *)
Fixpoint digits_value (d : uint) (acc : Z) : Z :=
  match d with
  | Nil => acc
  | D0 d => digits_value d (10 * acc)
  | D1 d => digits_value d (10 * acc + 1)
  | D2 d => digits_value d (10 * acc + 2)
  | D3 d => digits_value d (10 * acc + 3)
  | D4 d => digits_value d (10 * acc + 4)
  | D5 d => digits_value d (10 * acc + 5)
  | D6 d => digits_value d (10 * acc + 6)
  | D7 d => digits_value d (10 * acc + 7)
  | D8 d => digits_value d (10 * acc + 8)
  | D9 d => digits_value d (10 * acc + 9)
  end.

(** The flag of one option as the specification words it: [--key] when
    the value is absent, [--key=value] otherwise. *)
Definition flag (kv : string * option string) : string :=
  "--" ++ fst kv ++ match snd kv with
                    | None => ""
                    | Some v => "=" ++ v
                    end.

(** The submit command as the specification words it: the command name
    and the parsable flag, then one flag per option, in order. *)
Definition submit_command (options : list (string * option string))
  : string :=
  fold_left (fun cmd kv => cmd ++ " " ++ flag kv) options "sbatch --parsable".

(** The kill command as the specification words it. *)
Definition kill_command (jobid : Z) : string :=
  "scancel " ++ Py.decimal jobid.

(** The characters a decimal literal accepted by [int] can hold: digits,
    the underscore, the signs and the whitespace [int] skips. *)
Definition is_digit (c : ascii) : bool :=
  match Py.digit_of c with Some _ => true | None => false end.

Definition literal_char (c : ascii) : bool :=
  is_digit c || Ascii.eqb c "_" || Ascii.eqb c "+" || Ascii.eqb c "-"
  || Py.int_isspace c.

(** [sub] occurs in [s] at position [i]. *)
Definition occurs_at (i : nat) (sub s : string) : bool :=
  String.eqb (String.substring i (String.length sub) s) sub.

End Spec.

(* ================================================================== *)
(** ** Python dicts *)

Module PyDict.

(** A [dict] with [str] keys: its items in insertion order.  The
    operations below keep the keys distinct. *)
Definition dict (V : Type) : Type := list (string * V).

Section Dict.

Context {V : Type}.

(** [d.get(k)] *)
Fixpoint get (d : dict V) (k : string) : option V :=
  match d with
  | [] => None
  | (k', v) :: rest => if String.eqb k' k then Some v else get rest k
  end.

(** [d[k] = v]: a key already present keeps its place and takes the new
    value, a new key goes last. *)
Fixpoint set (d : dict V) (k : string) (v : V) : dict V :=
  match d with
  | [] => [(k, v)]
  | (k', v') :: rest =>
      if String.eqb k' k then (k', v) :: rest else (k', v') :: set rest k v
  end.

(** [d.update(other)], which is also how [{**d, **other}] is built. *)
Definition update (d other : dict V) : dict V :=
  fold_left (fun acc kv => set acc (fst kv) (snd kv)) other d.

Definition keys (d : dict V) : list string := map fst d.

End Dict.

(** [{k: v for k, v in d.items() if v is not None}] *)
Definition drop_none {V : Type} (d : dict (option V)) : dict V :=
  fold_left (fun acc kv => match snd kv with
                           | Some v => set acc (fst kv) v
                           | None => acc
                           end) d [].

(** A dict of plain values seen as one whose values may be [None]. *)
Definition lift {V : Type} (d : dict V) : dict (option V) :=
  map (fun kv => (fst kv, Some (snd kv))) d.

End PyDict.

(* ================================================================== *)
(** ** class SlurmJob: the methods that read the block's fields *)

Module SlurmJobBlock.

Import PyDict.

(** Exceptions of these methods: those of the backend and of the ssh
    layer ([Raised]), and the two other built-in ones that occur. *)
Inductive exc : Type :=
| Raised (e : Py.exn)
| TypeError
| KeyError (key : string).

Definition res (A : Type) : Type := (exc + A)%type.

Definition and_then {A B} (c : res A) (k : A -> res B) : res B :=
  match c with
  | inl e => inl e
  | inr a => k a
  end.

Definition of_backend {A} (c : Py.result A) : res A :=
  match c with
  | inl e => inl (Raised e)
  | inr a => inr a
  end.

(** Using an optional list where a list is needed: [None] is a
    [TypeError]. *)
Definition iterable {A} (o : option (list A)) : res (list A) :=
  match o with
  | Some l => inr l
  | None => inl TypeError
  end.

(** [d[k]] *)
Definition item {V} (d : dict V) (k : string) : res V :=
  match get d k with
  | Some v => inr v
  | None => inl (KeyError k)
  end.

(** Truth values of optional fields. *)
Definition nonempty_str (o : option string) : bool :=
  match o with
  | Some s => negb (Py.is_empty s)
  | None => false
  end.

Definition is_true (o : option bool) : bool :=
  match o with
  | Some b => b
  | None => false
  end.

Definition LF : string := String "010" "".

Definition startswith_sep (s : string) : bool :=
  match s with
  | String c _ => Ascii.eqb c "/"
  | EmptyString => false
  end.

Fixpoint endswith_sep (s : string) : bool :=
  match s with
  | EmptyString => false
  | String c EmptyString => Ascii.eqb c "/"
  | String _ r => endswith_sep r
  end.

(** [os.path.join(a, b)] on a POSIX host. *)
Definition path_join (a b : string) : string :=
  if startswith_sep b then b
  else if Py.is_empty a || endswith_sep a then a ++ b
  else a ++ "/" ++ b.

(** The fields of the block that the methods read.  [command] and [env]
    come from the base class. *)
Record block : Type := {
  host : string;
  pre_run : option (list string);
  post_run : option (list string);
  working_directory : option string;
  retain_working_directory : option bool;
  slurm_kwargs : option (dict (option string));
  stream_output : bool;
  conda_env : option string;
  command : option (list string);
  env : dict (option string)
}.

(** What the process supplies: [os.environ] and the base class's
    [_base_environment()]. *)
Record context : Type := {
  os_environ : dict string;
  base_environment : dict string
}.

Definition _get_environment_variables (ctx : context) (self : block)
    (include_os_environ : bool) : dict string :=
  let os_environ := if include_os_environ then os_environ ctx else [] in
  let env := update (update (update [] (lift os_environ))
                            (lift (base_environment ctx)))
                    (env self) in
  drop_none env.

Definition export_line (kv : string * string) : string :=
  "export " ++ fst kv ++ "=" ++ snd kv.

Definition _submit_script (ctx : context) (self : block) : res string :=
  let script := ["#!/bin/bash"] in
  let script :=
    (script ++ map export_line (_get_environment_variables ctx self false))%list in
  and_then (iterable (pre_run self)) (fun pre =>
  let script := (script ++ pre)%list in
  and_then (iterable (command self)) (fun command =>
  let line :=
    if nonempty_str (conda_env self)
    then "conda run -n "
         ++ match conda_env self with Some c => c | None => "" end
         ++ " " ++ Py.join " " command
    else Py.join " " command in
  let script := (script ++ [line])%list in
  and_then (iterable (post_run self)) (fun post =>
  let script := (script ++ post)%list in
  inr (Py.join LF script)))).

(** The remote executor of each host: [connect h] runs commands on [h]. *)
Definition connection : Type :=
  string -> string -> option string -> Z -> Py.result SSHCompletedProcess.

(** [SlurmJob.kill]: the backend is the one of the block's own host, and
    it is called with its default timeout. *)
Definition kill (connect : connection) (self : block)
    (infrastructure_pid : string) (grace_seconds : Z) : Py.result unit :=
  p <- SlurmJob._parse_infrastructure_pid infrastructure_pid ;;
  CLIBasedSlurmBackend.kill (connect (host self)) (snd p) 30.

(** *** run *)

(** The remote file system, as far as [run] uses it.  [run] opens a
    session before it creates the directory and another one once the
    watch is over; opening one, and each call, either raises or
    succeeds. *)
Record filesystem : Type := {
  session : nat -> option Py.exn;
  mkdir : string -> option Py.exn;
  read : string -> Py.result string;
  rmdir : string -> option Py.exn
}.

(** What [run] does to the outside, in order.  Debug and info log lines
    are left out. *)
Inductive effect : Type :=
| MkDir (path : string)
| Ran (on : string) (cmd : string) (stdin : option string)
| Started (pid : string)
| Watched (e : SlurmJob.event)
| Read (path : string)
| Print (text : string)
| RmDir (path : string)
| LoggedError.

Inductive run_outcome : Type :=
| RunRaised (e : exc)
| RunReturned (identifier : string) (status_code : Z)
| RunWatching.

(** The result of [run]: how it ended, what it did, and the block's
    [slurm_kwargs] afterwards. *)
Record run_result : Type := {
  outcome : run_outcome;
  effects : list effect;
  kwargs_after : option (dict (option string))
}.

(** Printing the log file named by [slurm_kwargs[key]]: what was done,
    and whether it went through.  A missing key, a [None] name and a
    failing read all raise. *)
Definition fetch (fs : filesystem) (wdir : string)
    (kw : dict (option string)) (key : string) : list effect * bool :=
  match get kw key with
  | Some (Some name) =>
      let path := path_join wdir name in
      match read fs path with
      | inr text => ([Read path; Print text], true)
      | inl _ => ([Read path], false)
      end
  | _ => ([], false)
  end.

(** The [try] block that prints the two log files; an exception ends it
    with an error line in the log. *)
Definition capture_output (fs : filesystem) (wdir : string)
    (kw : dict (option string)) : list effect :=
  let (first, ok) := fetch fs wdir kw "output" in
  if ok then
    let (second, ok) := fetch fs wdir kw "error" in
    (first ++ second ++ if ok then [] else [LoggedError])%list
  else (first ++ [LoggedError])%list.

(** The [try] block that removes the working directory. *)
Definition cleanup (fs : filesystem) (wdir : string) : list effect :=
  match rmdir fs wdir with
  | None => [RmDir wdir]
  | Some _ => [RmDir wdir; LoggedError]
  end.

(** [run].  The submission goes through the executor of the block's
    host; the watch that follows is fed the scripted [answers] of
    [SlurmJob._watch_job], starting at [clock]; [task_status] tells
    whether a task status was passed in; the status queries of the
    watch are taken to return, and are recorded as the polls of the
    watch.  [Ran], [MkDir], [Read] and [RmDir] record that the call was
    made, whether or not it went through. *)
Definition run (ctx : context) (fs : filesystem) (connect : connection)
    (answers : list SlurmJob.answer) (clock : Q)
    (self : block) (task_status : bool) : run_result :=
  let stop e did kw :=
    {| outcome := RunRaised e; effects := did; kwargs_after := kw |} in
  match command self with
  | None | Some [] => stop (Raised Py.ValueError) [] (slurm_kwargs self)
  | Some _ =>
  match item (_get_environment_variables ctx self true)
             "PREFECT__FLOW_RUN_ID" with
  | inl e => stop e [] (slurm_kwargs self)
  | inr flow_run_id =>
  let wdir :=
    path_join (if nonempty_str (working_directory self)
               then match working_directory self with
                    | Some d => d
                    | None => "."
                    end
               else ".") flow_run_id in
  match session fs 0 with
  | Some e => stop (Raised e) [] (slurm_kwargs self)
  | None =>
  match mkdir fs wdir with
  | Some e => stop (Raised e) [MkDir wdir] (slurm_kwargs self)
  | None =>
  match slurm_kwargs self with
  | None => stop TypeError [MkDir wdir] None
  | Some kw =>
  let kw := set kw "chdir" (Some wdir) in
  let kw := set kw "output" (Some "output.log") in
  let kw := set kw "error" (Some "error.log") in
  match _submit_script ctx self with
  | inl e => stop e [MkDir wdir] (Some kw)
  | inr script =>
  let cmd := CLIBasedSlurmBackend._submit_command kw in
  let did := [MkDir wdir; Ran (host self) cmd (Some script)] in
  match CLIBasedSlurmBackend.submit (connect (host self)) kw
                                    (Some script) 30 with
  | inl e => stop (Raised e) did (Some kw)
  | inr jobid =>
  match SlurmJob._get_infrastructure_pid (host self) jobid with
  | inl e => stop (Raised e) did (Some kw)
  | inr pid =>
  let did := (did ++ if task_status then [Started pid] else [])%list in
  let (watched, w) :=
    SlurmJob._watch_job answers jobid 30
      {| SlurmJob.now := clock; SlurmJob.trace := [] |} in
  let did := (did ++ map Watched (SlurmJob.trace w))%list in
  match watched with
  | SlurmJob.StillPolling _ =>
      {| outcome := RunWatching; effects := did; kwargs_after := Some kw |}
  | SlurmJob.Returned status_code =>
      match session fs 1 with
      | Some e => stop (Raised e) did (Some kw)
      | None =>
          let did :=
            (did ++ if stream_output self then capture_output fs wdir kw
                    else [])%list in
          let did :=
            (did ++ if negb (is_true (retain_working_directory self))
                    then cleanup fs wdir else [])%list in
          {| outcome := RunReturned pid status_code; effects := did;
             kwargs_after := Some kw |}
      end
  end end end end end end end end end.

End SlurmJobBlock.

(** ** Further notions the statements are phrased with *)

Module Notions.

Import SlurmJob.

(** The statuses on which the monitor sleeps and polls again. *)
Definition waiting (s : SlurmJobStatus) : bool :=
  match s with
  | PENDING | RUNNING | PREEMPTED | UNKNOWN => true
  | _ => false
  end.

(** The world after the polls [pre], each followed by a sleep. *)
Definition after_waiting (jobid polling_seconds : Z) (pre : list answer)
    (w : world) : world :=
  fold_left (fun w a => sleep polling_seconds (snd (backend_status jobid a w)))
            pre w.

(** The loop variables after the polls [pre], none of them terminal. *)
Definition seen_after (pre : list answer) (f : flags) : flags :=
  match pre with
  | [] => f
  | _ :: _ => {| completed := false; submitted := true |}
  end.

(** The world after the polls [us], each answered UNDEFINED for a job
    never seen and inside the grace window: the query, then the error
    line in the log, and nothing else. *)
Definition after_unseen (jobid : Z) (us : list answer) (w : world) : world :=
  fold_left (fun w u => emit (LogError jobid) (snd (backend_status jobid u w)))
            us w.

(** The time the queries [answers] take altogether. *)
Definition total_latency (answers : list answer) : Q :=
  fold_right (fun a acc => (snd a + acc)%Q) (0 # 1)%Q answers.

(** What the script puts before the command when a conda environment
    is named. *)
Definition conda_prefix (conda_env : option string) : string :=
  match conda_env with
  | Some c => if Py.is_empty c then "" else "conda run -n " ++ c ++ " "
  | None => ""
  end.

(** A line break followed by nothing. *)
Definition LF_tail : string := String "010" "".

(** [s] is empty or begins with whitespace. *)
Definition blank_start (s : string) : bool :=
  match s with
  | EmptyString => true
  | String c _ => Py.isspace c
  end.

Definition nonspace (c : ascii) : bool := negb (Py.isspace c).

(** The directories [run] called [mkdir] on and those it called [rmdir]
    on, in order. *)
Definition created (l : list SlurmJobBlock.effect) : list string :=
  flat_map (fun e => match e with
                     | SlurmJobBlock.MkDir p => [p]
                     | _ => []
                     end) l.

Definition removed (l : list SlurmJobBlock.effect) : list string :=
  flat_map (fun e => match e with
                     | SlurmJobBlock.RmDir p => [p]
                     | _ => []
                     end) l.

(** The remote commands [run] itself hands to the backend's executor,
    that is, its submissions; the status queries of the watch that
    follows are recorded as polls. *)
Definition commands (l : list SlurmJobBlock.effect)
  : list (string * string * option string) :=
  flat_map (fun e => match e with
                     | SlurmJobBlock.Ran h c i => [(h, c, i)]
                     | _ => []
                     end) l.

(** The job ids the status queries of [run]'s watch asked for, in
    order. *)
Definition queried (l : list SlurmJobBlock.effect) : list Z :=
  flat_map (fun e => match e with
                     | SlurmJobBlock.Watched (SlurmJob.Polled j _) => [j]
                     | _ => []
                     end) l.

End Notions.

(** ** A sample deployment, for instances of the statements *)

Module Sample.

Import PyDict SlurmJobBlock.

Definition ctx : context := {|
  os_environ := [("HOME", "/home/flow"); ("PATH", "/bin")];
  base_environment := [("PREFECT_API_URL", "http://api"); ("PATH", "/usr/bin")]
|}.

Definition job : block := {|
  host := "login.hpc";
  pre_run := Some ["module load python"];
  post_run := Some [];
  working_directory := Some "/scratch";
  retain_working_directory := Some false;
  slurm_kwargs := Some [("nodes", Some "1"); ("output", Some "mine.log")];
  stream_output := true;
  conda_env := Some "flows";
  command := Some ["python"; "-m"; "prefect.engine"];
  env := [("PREFECT__FLOW_RUN_ID", Some "run-1");
          ("PREFECT_API_URL", None); ("HOME", Some "/tmp")]
|}.

(** A file system on which everything works but the error log. *)
Definition fs : filesystem := {|
  session := fun _ => None;
  mkdir := fun _ => None;
  read := fun path => if String.eqb path "/scratch/run-1/output.log"
                      then inr "done"
                      else inl (Py.RemoteError "FileNotFoundError");
  rmdir := fun _ => None
|}.

(** A cluster that answers every command with job id 77. *)
Definition connect : connection :=
  fun _ _ _ _ => inr {| exit_status := 0; stdout := "77"; stderr := "" |}.

Definition answers : list SlurmJob.answer :=
  [(RUNNING, 1 # 2); (COMPLETED, 1 # 2)]%Q.

(** The same job with [slurm_kwargs] left at its default. *)
Definition bare : block := {|
  host := host job;
  pre_run := pre_run job;
  post_run := post_run job;
  working_directory := working_directory job;
  retain_working_directory := retain_working_directory job;
  slurm_kwargs := None;
  stream_output := stream_output job;
  conda_env := conda_env job;
  command := command job;
  env := env job
|}.

(** The same job without a command. *)
Definition idle : block := {|
  host := host job;
  pre_run := pre_run job;
  post_run := post_run job;
  working_directory := working_directory job;
  retain_working_directory := retain_working_directory job;
  slurm_kwargs := slurm_kwargs job;
  stream_output := stream_output job;
  conda_env := conda_env job;
  command := Some [];
  env := env job
|}.

(** A file system on which nothing can be read or removed. *)
Definition broken_fs : filesystem := {|
  session := session fs;
  mkdir := mkdir fs;
  read := fun _ => inl (Py.RemoteError "PermissionError");
  rmdir := fun _ => Some (Py.RemoteError "PermissionError")
|}.

End Sample.

(* ================================================================== *)
(** ** Facts about the built-ins *)

Module PyFacts.

Import Py Spec.

Lemma append_assoc (a b c : string) : (a ++ b) ++ c = a ++ (b ++ c).
Proof. induction a as [|x a IH]; simpl; [reflexivity | now rewrite IH]. Qed.

Lemma append_nil_r (a : string) : a ++ "" = a.
Proof. induction a as [|x a IH]; simpl; [reflexivity | now rewrite IH]. Qed.

Lemma all_chars_app p a b :
  all_chars p (a ++ b) = all_chars p a && all_chars p b.
Proof.
  induction a as [|x a IH]; simpl; [reflexivity|].
  now rewrite IH, andb_assoc.
Qed.

Lemma all_chars_impl (p q : ascii -> bool) s :
  (forall c, p c = true -> q c = true) ->
  all_chars p s = true -> all_chars q s = true.
Proof.
  intros Hpq. induction s as [|x s IH]; simpl; [reflexivity|].
  intros H. apply andb_true_iff in H as [Hx Hs].
  now rewrite (Hpq _ Hx), IH.
Qed.

(** *** Stripping *)

Lemma lstrip_by_all p ws s :
  all_chars p ws = true -> lstrip_by p (ws ++ s) = lstrip_by p s.
Proof.
  induction ws as [|x ws IH]; simpl; [reflexivity|].
  intros H. apply andb_true_iff in H as [Hx Hws].
  now rewrite Hx, IH.
Qed.

Lemma lstrip_by_head p s :
  all_chars (fun c => negb (p c)) s = true -> forall t,
  s <> "" -> lstrip_by p (s ++ t) = s ++ t.
Proof.
  destruct s as [|x s]; simpl; [congruence|].
  intros H t _. apply andb_true_iff in H as [Hx _].
  apply negb_true_iff in Hx. now rewrite Hx.
Qed.

Lemma rstrip_by_all p ws :
  all_chars p ws = true -> rstrip_by p ws = "".
Proof.
  induction ws as [|x ws IH]; simpl; [reflexivity|].
  intros H. apply andb_true_iff in H as [Hx Hws].
  now rewrite IH, Hx.
Qed.

Lemma rstrip_by_tail p s ws :
  all_chars (fun c => negb (p c)) s = true ->
  all_chars p ws = true -> rstrip_by p (s ++ ws) = s.
Proof.
  intros Hs Hws. induction s as [|x s IH]; simpl.
  - now apply rstrip_by_all.
  - simpl in Hs. apply andb_true_iff in Hs as [Hx Hs].
    apply negb_true_iff in Hx. now rewrite IH, Hx.
Qed.

(** Stripping removes a padding of [p]-characters around a core that has
    none. *)
Lemma strip_by_padded p ws1 s ws2 :
  all_chars p ws1 = true ->
  all_chars (fun c => negb (p c)) s = true ->
  all_chars p ws2 = true ->
  strip_by p (ws1 ++ s ++ ws2) = s.
Proof.
  intros H1 Hs H2. unfold strip_by. rewrite lstrip_by_all by assumption.
  destruct s as [|x s].
  - simpl. rewrite <- (append_nil_r ws2), lstrip_by_all by assumption.
    reflexivity.
  - rewrite lstrip_by_head by (assumption || discriminate).
    now apply rstrip_by_tail.
Qed.

Lemma strip_by_clean p s :
  all_chars (fun c => negb (p c)) s = true -> strip_by p s = s.
Proof.
  intros Hs. rewrite <- (strip_by_padded p "" s "") at 2 by easy.
  simpl. now rewrite append_nil_r.
Qed.

(** *** Decimal rendering *)

Lemma all_chars_uint (q : ascii -> bool) d :
  all_chars q "0123456789" = true ->
  all_chars q (NilEmpty.string_of_uint d) = true.
Proof.
  simpl. rewrite !andb_true_iff.
  intros (H0 & H1 & H2 & H3 & H4 & H5 & H6 & H7 & H8 & H9 & _).
  induction d; simpl; rewrite ?IHd, ?H0, ?H1, ?H2, ?H3, ?H4, ?H5, ?H6,
    ?H7, ?H8, ?H9; reflexivity.
Qed.

Lemma decimal_nonneg n :
  0 <= n -> exists d, d <> Nil /\ decimal n = NilEmpty.string_of_uint d
                      /\ Z.of_uint d = n.
Proof.
  intros Hn. destruct n as [|p|p]; [| |lia].
  - exists (D0 Nil). repeat split. discriminate.
  - exists (Pos.to_uint p). split; [apply Unsigned.to_uint_nonnil|].
    split.
    + unfold decimal. simpl. unfold NilZero.string_of_uint.
      pose proof (Unsigned.to_uint_nonnil p) as Hnil.
      destruct (Pos.to_uint p); congruence.
    + unfold Z.of_uint. now rewrite Unsigned.of_to.
Qed.

Lemma decimal_neg p :
  exists d, d <> Nil
            /\ decimal (Zneg p) = String "-" (NilEmpty.string_of_uint d)
            /\ Z.of_uint d = Zpos p.
Proof.
  exists (Pos.to_uint p). split; [apply Unsigned.to_uint_nonnil|]. split.
  - unfold decimal. simpl. unfold NilZero.string_of_uint.
    pose proof (Unsigned.to_uint_nonnil p) as Hnil.
    destruct (Pos.to_uint p); congruence.
  - unfold Z.of_uint. now rewrite Unsigned.of_to.
Qed.

Lemma all_chars_decimal (q : ascii -> bool) n :
  all_chars q "-0123456789" = true -> all_chars q (decimal n) = true.
Proof.
  intros H. change "-0123456789" with ("-" ++ "0123456789") in H.
  rewrite all_chars_app in H. apply andb_true_iff in H as [Hm Hd].
  destruct n as [|p|p].
  - destruct (decimal_nonneg 0) as (d & _ & -> & _); [lia|].
    now apply all_chars_uint.
  - destruct (decimal_nonneg (Zpos p)) as (d & _ & -> & _); [lia|].
    now apply all_chars_uint.
  - destruct (decimal_neg p) as (d & _ & -> & _).
    simpl in Hm |- *. rewrite andb_true_r in Hm. rewrite Hm. simpl.
    now apply all_chars_uint.
Qed.

(** *** Reading a rendered integer back *)

Lemma int_digits_uint d acc :
  int_digits (NilEmpty.string_of_uint d) acc = Some (digits_value d acc).
Proof.
  revert acc. induction d; intros acc; simpl; rewrite ?IHd, ?Z.add_0_r;
    reflexivity.
Qed.

Lemma digits_value_revapp d d' :
  digits_value d (Z.of_N (Unsigned.of_lu d'))
  = Z.of_N (Unsigned.of_lu (revapp d d')).
Proof.
  revert d'.
  induction d; intros d'; cbn [digits_value revapp]; [reflexivity | ..];
    rewrite <- IHd; f_equal; cbn [Unsigned.of_lu]; lia.
Qed.

Lemma digits_value_of_uint d : digits_value d 0 = Z.of_uint d.
Proof.
  unfold Z.of_uint. rewrite Unsigned.of_uint_alt.
  exact (digits_value_revapp d Nil).
Qed.

Lemma int_unsigned_uint d :
  d <> Nil -> int_unsigned (NilEmpty.string_of_uint d) = Some (Z.of_uint d).
Proof.
  intros Hd. rewrite <- digits_value_of_uint.
  destruct d; [congruence | ..]; simpl; rewrite int_digits_uint;
    reflexivity.
Qed.

Lemma int_signed_uint d :
  d <> Nil -> int_signed (NilEmpty.string_of_uint d) = Some (Z.of_uint d).
Proof.
  intros Hd. rewrite <- (int_unsigned_uint d Hd).
  destruct d; [congruence | ..]; reflexivity.
Qed.

(** *** What [int] rejects *)

Lemma string_pair_ind (P : string -> Prop) :
  P "" -> (forall c, P (String c "")) ->
  (forall c c' r, P r -> P (String c' r) -> P (String c (String c' r))) ->
  forall s, P s.
Proof.
  intros H0 H1 H2.
  assert (H : forall s, P s /\ forall c, P (String c s)).
  { induction s as [|c' r [IH1 IH2]]; split; auto. }
  intros s. apply H.
Qed.

Lemma int_digits_chars s :
  forall acc n, int_digits s acc = Some n ->
  all_chars literal_char s = true.
Proof.
  induction s as [|c|c c' r IHr IHc'] using string_pair_ind;
    intros acc n; [reflexivity | ..].
  - cbn [int_digits all_chars]. unfold literal_char, is_digit.
    destruct (digit_of c); [reflexivity|].
    destruct (Ascii.eqb c "_"); discriminate.
  - cbn [int_digits]. cbn [all_chars] in IHc' |- *.
    unfold literal_char at 1. unfold is_digit at 1.
    destruct (digit_of c) as [d|].
    + intros H. now rewrite (IHc' _ _ H).
    + destruct (Ascii.eqb c "_"); [|discriminate].
      unfold literal_char at 1. unfold is_digit at 1.
      destruct (digit_of c') as [d|]; [|discriminate].
      intros H. now rewrite (IHr _ _ H).
Qed.

Lemma int_unsigned_chars s n :
  int_unsigned s = Some n -> all_chars literal_char s = true.
Proof.
  destruct s as [|c r]; [discriminate|]. cbn [int_unsigned all_chars].
  unfold literal_char at 1. unfold is_digit.
  destruct (digit_of c); [|discriminate].
  intros H. now rewrite (int_digits_chars _ _ _ H).
Qed.

Lemma int_signed_chars s n :
  int_signed s = Some n -> all_chars literal_char s = true.
Proof.
  destruct s as [|c r]; [discriminate|]. cbn [int_signed].
  destruct (Ascii.eqb c "+") eqn:Ep; [|destruct (Ascii.eqb c "-") eqn:Em].
  - intros H. cbn [all_chars]. unfold literal_char at 1.
    rewrite Ep, (int_unsigned_chars _ _ H).
    now rewrite !orb_true_r.
  - destruct (int_unsigned r) as [m|] eqn:E; [|discriminate].
    intros _. cbn [all_chars]. unfold literal_char at 1.
    rewrite Em, (int_unsigned_chars _ _ E).
    now rewrite !orb_true_r.
  - apply int_unsigned_chars.
Qed.

Lemma all_chars_lstrip (p q : ascii -> bool) s :
  (forall c, p c = true -> q c = true) ->
  all_chars q (lstrip_by p s) = true -> all_chars q s = true.
Proof.
  intros Hpq. induction s as [|c r IH]; [reflexivity|]. cbn [lstrip_by].
  destruct (p c) eqn:E; [|trivial].
  intros H. cbn [all_chars]. now rewrite (Hpq _ E), IH.
Qed.

Lemma all_chars_rstrip (p q : ascii -> bool) s :
  (forall c, p c = true -> q c = true) ->
  all_chars q (rstrip_by p s) = true -> all_chars q s = true.
Proof.
  intros Hpq. induction s as [|c r IH]; [reflexivity|].
  cbn [rstrip_by all_chars].
  destruct (p c) eqn:E; cbn [andb].
  - destruct (rstrip_by p r) as [|c' r'] eqn:Er; cbn [is_empty].
    + intros _. now rewrite (Hpq _ E), IH.
    + cbn [all_chars]. intros H. apply andb_true_iff in H as [Hc H].
      now rewrite Hc, IH.
  - cbn [all_chars]. intros H. apply andb_true_iff in H as [Hc H].
    now rewrite Hc, IH.
Qed.

(** Whatever [int] accepts is made of literal characters only; a string
    with any other character raises. *)
Lemma int_accepts_chars s n :
  int s = inr n -> all_chars literal_char s = true.
Proof.
  unfold int. destruct (int_signed _) as [m|] eqn:E; [|discriminate].
  intros _. apply int_signed_chars in E. unfold strip_by in E.
  assert (Hsp : forall c, int_isspace c = true -> literal_char c = true)
    by (intros c Hc; unfold literal_char; now rewrite Hc, !orb_true_r).
  apply (all_chars_lstrip int_isspace); [assumption|].
  now apply (all_chars_rstrip int_isspace).
Qed.

Lemma int_raises_value_error s e : int s = inl e -> e = ValueError.
Proof.
  unfold int. destruct (int_signed _); [|now intros [= <-]].
  destruct (_ <? _)%Z; [now intros [= <-] | discriminate].
Qed.

Lemma int_rejects s :
  all_chars literal_char s = false -> int s = inl ValueError.
Proof.
  intros H. destruct (int s) as [e|n] eqn:E.
  - now rewrite (int_raises_value_error _ _ E).
  - apply int_accepts_chars in E. congruence.
Qed.

(** A literal with more digits than the cap raises. *)
Lemma int_long s :
  max_str_digits < count_digits (strip_by int_isspace s) ->
  int s = inl ValueError.
Proof.
  intros H. unfold int. destruct (int_signed _); [|reflexivity].
  apply Z.ltb_lt in H. now rewrite H.
Qed.

(** Stripping whitespace removes no digit. *)
Lemma space_not_digit c :
  isspace c = true \/ int_isspace c = true -> digit_of c = None.
Proof.
  intros H.
  destruct c as [[|] [|] [|] [|] [|] [|] [|] [|]];
    (reflexivity || (vm_compute in H; destruct H; discriminate)).
Qed.

Lemma count_digits_lstrip p s :
  (forall c, p c = true -> digit_of c = None) ->
  count_digits (lstrip_by p s) = count_digits s.
Proof.
  intros Hp. induction s as [|c r IH]; [reflexivity|]. cbn [lstrip_by].
  destruct (p c) eqn:E; [|reflexivity].
  cbn [count_digits]. now rewrite (Hp c E).
Qed.

Lemma count_digits_rstrip p s :
  (forall c, p c = true -> digit_of c = None) ->
  count_digits (rstrip_by p s) = count_digits s.
Proof.
  intros Hp. induction s as [|c r IH]; [reflexivity|].
  cbn [rstrip_by count_digits].
  destruct (p c) eqn:E; cbn [andb].
  - rewrite (Hp c E).
    destruct (rstrip_by p r) eqn:Er; cbn [is_empty];
      [exact IH | cbn [count_digits]; now rewrite (Hp c E)].
  - cbn [count_digits]. now rewrite IH.
Qed.

Lemma count_digits_strip s : count_digits (strip s) = count_digits s.
Proof.
  unfold strip, strip_by.
  rewrite count_digits_rstrip, count_digits_lstrip;
    [reflexivity | ..]; intros c Hc; apply space_not_digit; now left.
Qed.

Lemma count_digits_int_strip s :
  count_digits (strip_by int_isspace s) = count_digits s.
Proof.
  unfold strip_by.
  rewrite count_digits_rstrip, count_digits_lstrip;
    [reflexivity | ..]; intros c Hc; apply space_not_digit; now right.
Qed.

(** *** The size of a rendering *)

Lemma count_digits_uint d :
  count_digits (NilEmpty.string_of_uint d) = Z.of_nat (nb_digits d).
Proof.
  induction d; cbn [NilEmpty.string_of_uint nb_digits];
    [reflexivity | ..];
    rewrite Nat2Z.inj_succ; cbn [count_digits]; rewrite IHd;
    match goal with
    | |- context [digit_of ?c] =>
        let v := eval vm_compute in (digit_of c) in
        change (digit_of c) with v
    end; lia.
Qed.

Lemma digits_value_bounds d :
  forall acc, 0 <= acc ->
  acc * 10 ^ Z.of_nat (nb_digits d) <= digits_value d acc
  /\ digits_value d acc < (acc + 1) * 10 ^ Z.of_nat (nb_digits d).
Proof.
  induction d; intros acc Hacc; cbn [digits_value nb_digits];
    [rewrite Z.pow_0_r; lia | ..];
    rewrite Nat2Z.inj_succ, Z.pow_succ_r by lia;
    match goal with
    | |- context [digits_value d ?a] =>
        destruct (IHd a ltac:(lia)) as [Hlo Hhi]
    end;
    assert (0 < 10 ^ Z.of_nat (nb_digits d)) by (apply Z.pow_pos_nonneg; lia);
    nia.
Qed.

(** The digits of a positive number do not begin with 0. *)
Lemma to_uint_head p : nzhead (Pos.to_uint p) = Pos.to_uint p.
Proof.
  pose proof (Unsigned.to_of (Pos.to_uint p)) as H.
  rewrite Unsigned.of_to in H. cbn [N.to_uint] in H.
  unfold unorm in H.
  destruct (nzhead (Pos.to_uint p)) eqn:E; try (now rewrite H).
  exfalso. exact (Unsigned.to_uint_nonzero p H).
Qed.

(** A positive number with [L] digits lies between [10^(L-1)] and
    [10^L]. *)
Lemma pos_size p :
  10 ^ (Z.of_nat (nb_digits (Pos.to_uint p)) - 1) <= Zpos p
  /\ Zpos p < 10 ^ Z.of_nat (nb_digits (Pos.to_uint p)).
Proof.
  assert (Hv : digits_value (Pos.to_uint p) 0 = Zpos p)
    by (rewrite digits_value_of_uint; unfold Z.of_uint;
        now rewrite Unsigned.of_to).
  split.
  - pose proof (to_uint_head p) as Hh.
    pose proof (Unsigned.to_uint_nonnil p) as Hn.
    rewrite <- Hv.
    destruct (Pos.to_uint p) as [|d|d|d|d|d|d|d|d|d|d]; [congruence | ..].
    { exfalso. cbn [nzhead] in Hh.
      pose proof (DecimalFacts.nb_digits_nzhead d) as Hle. rewrite Hh in Hle.
      cbn [nb_digits] in Hle. lia. }
    all: cbn [digits_value nb_digits]; rewrite Nat2Z.inj_succ;
      match goal with
      | |- context [digits_value ?u ?a] =>
          replace (Z.succ (Z.of_nat (nb_digits u)) - 1)
            with (Z.of_nat (nb_digits u)) by lia;
          destruct (digits_value_bounds u a ltac:(lia)) as [Hlo _];
          assert (0 < 10 ^ Z.of_nat (nb_digits u))
            by (apply Z.pow_pos_nonneg; lia)
      end;
      nia.
  - rewrite <- Hv.
    destruct (digits_value_bounds (Pos.to_uint p) 0 ltac:(lia)) as [_ Hhi].
    lia.
Qed.

Lemma count_digits_pos p m :
  count_digits (NilEmpty.string_of_uint (Pos.to_uint p)) <= m
  <-> Zpos p < 10 ^ m.
Proof.
  rewrite count_digits_uint.
  destruct (pos_size p) as [Hlo Hhi].
  set (L := Z.of_nat (nb_digits (Pos.to_uint p))) in *.
  assert (HL : 0 <= L) by (subst L; lia).
  split; intros H.
  - apply (Z.lt_le_trans _ _ _ Hhi). apply Z.pow_le_mono_r; lia.
  - destruct (Z_le_gt_dec L m) as [Hle|Hgt]; [assumption|].
    exfalso. destruct (Z_lt_le_dec m 0) as [Hneg|Hpos].
    + rewrite Z.pow_neg_r in H by assumption. lia.
    + assert (10 ^ m <= 10 ^ (L - 1)) by (apply Z.pow_le_mono_r; lia).
      lia.
Qed.

(** The rendering of [n] has at most [m] digits exactly when
    [|n| < 10^m]. *)
Lemma count_digits_decimal n m :
  1 <= m -> (count_digits (decimal n) <= m <-> Z.abs n < 10 ^ m).
Proof.
  intros Hm. destruct n as [|p|p].
  - cbn. split; intros _; [apply Z.pow_pos_nonneg; lia | lia].
  - destruct (decimal_nonneg (Zpos p)) as (d & _ & E & _); [lia|].
    cbn [Z.abs]. rewrite <- count_digits_pos. unfold decimal in *.
    cbn [Z.to_int NilZero.string_of_int] in *.
    unfold NilZero.string_of_uint.
    pose proof (Unsigned.to_uint_nonnil p) as Hn.
    destruct (Pos.to_uint p); try congruence; reflexivity.
  - cbn [Z.abs]. rewrite <- count_digits_pos. unfold decimal.
    cbn [Z.to_int NilZero.string_of_int]. unfold NilZero.string_of_uint.
    pose proof (Unsigned.to_uint_nonnil p) as Hn.
    destruct (Pos.to_uint p); try congruence; reflexivity.
Qed.

(** *** [str], and reading its result back *)

Lemma str_inr n s :
  str n = inr s -> s = decimal n /\ count_digits s <= max_str_digits.
Proof.
  unfold str. destruct (_ <? _)%Z eqn:E; [discriminate|].
  intros [= <-]. split; [reflexivity|]. now apply Z.ltb_ge in E.
Qed.

Lemma str_small n :
  Z.abs n < 10 ^ max_str_digits -> str n = inr (decimal n).
Proof.
  intros H. apply count_digits_decimal in H; [|unfold max_str_digits; lia].
  unfold str. apply Z.ltb_ge in H. now rewrite H.
Qed.


Lemma int_signed_decimal n : int_signed (decimal n) = Some n.
Proof.
  destruct n as [|p|p].
  - reflexivity.
  - destruct (decimal_nonneg (Zpos p)) as (d & Hd & -> & Hv); [lia|].
    now rewrite int_signed_uint, Hv.
  - destruct (decimal_neg p) as (d & Hd & -> & Hv).
    cbn [int_signed]. now rewrite int_unsigned_uint, Hv.
Qed.

(** [int] of a decimal rendering within the cap is the number. *)
Lemma int_decimal n :
  count_digits (decimal n) <= max_str_digits -> int (decimal n) = inr n.
Proof.
  intros H. unfold int.
  rewrite strip_by_clean by (now apply all_chars_decimal).
  rewrite int_signed_decimal. apply Z.ltb_ge in H. now rewrite H.
Qed.


(** [int(str(n)) == n] whenever [str(n)] is a string. *)
Lemma int_str n s : str n = inr s -> int s = inr n.
Proof.
  intros H. apply str_inr in H as [-> H]. now apply int_decimal.
Qed.

(** *** The size of what [int] reads *)

Lemma digit_of_range c d : digit_of c = Some d -> 0 <= d <= 9.
Proof.
  unfold digit_of.
  destruct ((48 <=? N_of_ascii c) && (N_of_ascii c <=? 57))%N eqn:E;
    [|discriminate].
  intros [= <-]. apply andb_true_iff in E as [H1 H2].
  apply N.leb_le in H1, H2. lia.
Qed.

Lemma count_digits_nonneg s : 0 <= count_digits s.
Proof.
  induction s as [|c r IH]; cbn [count_digits]; [lia|].
  destruct (digit_of c); lia.
Qed.

Lemma int_digits_digit c r acc d :
  digit_of c = Some d ->
  int_digits (String c r) acc = int_digits r (10 * acc + d).
Proof. intros H. cbn [int_digits]. now rewrite H. Qed.

Lemma int_digits_bound s :
  forall acc n, int_digits s acc = Some n -> 0 <= acc ->
  0 <= n < (acc + 1) * 10 ^ count_digits s.
Proof.
  induction s as [|c|c c' r IHr IHc'] using string_pair_ind;
    intros acc n.
  - cbn [int_digits count_digits]. intros [= <-] Hacc.
    rewrite Z.pow_0_r. lia.
  - destruct (digit_of c) as [d|] eqn:Ed.
    + rewrite (int_digits_digit c "" acc d Ed).
      change (int_digits "" (10 * acc + d)) with (Some (10 * acc + d)).
      intros H Hacc. assert (Hn : n = 10 * acc + d) by congruence.
      apply digit_of_range in Ed as Hd.
      cbn [count_digits]. rewrite Ed. change (10 ^ (1 + 0)) with 10. lia.
    + cbn [int_digits]. rewrite Ed.
      destruct (Ascii.eqb c "_"); discriminate.
  - pose proof (count_digits_nonneg r) as Hr.
    pose proof (count_digits_nonneg (String c' r)) as Hr'.
    change (count_digits (String c (String c' r)))
      with (match digit_of c with
            | Some _ => 1 + count_digits (String c' r)
            | None => count_digits (String c' r)
            end).
    destruct (digit_of c) as [d|] eqn:Ed.
    + rewrite (int_digits_digit c (String c' r) acc d Ed).
      intros H Hacc. apply digit_of_range in Ed as Hd.
      apply IHc' in H; [|lia].
      rewrite Z.pow_add_r by lia. change (10 ^ 1) with 10. nia.
    + cbn [int_digits]. rewrite Ed.
      destruct (Ascii.eqb c "_"); [|discriminate].
      destruct (digit_of c') as [d|] eqn:Ed'; [|discriminate].
      intros H Hacc. apply digit_of_range in Ed' as Hd.
      apply IHr in H; [|lia].
      cbn [count_digits]. rewrite Ed'.
      rewrite Z.pow_add_r by lia. change (10 ^ 1) with 10. nia.
Qed.

Lemma int_unsigned_bound s n :
  int_unsigned s = Some n -> 0 <= n < 10 ^ count_digits s.
Proof.
  destruct s as [|c r]; [discriminate|]. cbn [int_unsigned count_digits].
  destruct (digit_of c) as [d|] eqn:Ed; [|discriminate].
  intros H. apply digit_of_range in Ed as Hd.
  apply int_digits_bound in H; [|lia].
  pose proof (count_digits_nonneg r).
  rewrite Z.pow_add_r by lia. change (10 ^ 1) with 10. nia.
Qed.

Lemma int_signed_bound s n :
  int_signed s = Some n -> Z.abs n < 10 ^ count_digits s.
Proof.
  destruct s as [|c r]; [discriminate|]. cbn [int_signed].
  destruct (Ascii.eqb c "+") eqn:Ep; [|destruct (Ascii.eqb c "-") eqn:Em].
  - apply Ascii.eqb_eq in Ep as ->. intros H.
    apply int_unsigned_bound in H.
    change (count_digits (String "+" r)) with (count_digits r). lia.
  - apply Ascii.eqb_eq in Em as ->.
    destruct (int_unsigned r) as [m|] eqn:E; [|discriminate].
    intros [= <-]. apply int_unsigned_bound in E.
    change (count_digits (String "-" r)) with (count_digits r). lia.
  - intros H. apply int_unsigned_bound in H. lia.
Qed.

(** Whatever [int] returns is below the cap, so [str] renders it. *)
Lemma int_bounded s n : int s = inr n -> Z.abs n < 10 ^ max_str_digits.
Proof.
  unfold int. destruct (int_signed _) as [m|] eqn:E; [|discriminate].
  destruct (_ <? _)%Z eqn:Hc; [discriminate|]. intros [= <-].
  apply int_signed_bound in E. apply Z.ltb_ge in Hc.
  pose proof (Z.pow_le_mono_r 10 _ _ ltac:(lia) Hc). lia.
Qed.

Lemma int_renders s n : int s = inr n -> str n = inr (decimal n).
Proof. intros H. apply str_small. now apply (int_bounded s). Qed.

End PyFacts.

(* ================================================================== *)
(** ** Facts about splitting *)

Module SplitFacts.

Import Py Spec PyFacts.

Lemma count_app c a b : count c (a ++ b) = (count c a + count c b)%nat.
Proof.
  induction a as [|x a IH]; simpl; [reflexivity|].
  destruct (Ascii.eqb x c); simpl; now rewrite IH.
Qed.

Lemma count_all_chars c s :
  all_chars (fun x => negb (Ascii.eqb x c)) s = true -> count c s = 0%nat.
Proof.
  induction s as [|x s IH]; simpl; [reflexivity|].
  intros H. apply andb_true_iff in H as [Hx Hs].
  apply negb_true_iff in Hx. rewrite Hx. now apply IH.
Qed.

Lemma fields_clean sep s : count sep s = 0%nat -> fields sep s = (s, []).
Proof.
  induction s as [|x s IH]; simpl; [reflexivity|].
  destruct (Ascii.eqb x sep); [discriminate|].
  intros H. now rewrite IH.
Qed.

Lemma split_on_app sep h t :
  count sep h = 0%nat ->
  split_on sep (h ++ String sep t) = h :: split_on sep t.
Proof.
  unfold split_on. induction h as [|x h IH]; simpl.
  - intros _. rewrite Ascii.eqb_refl. now destruct (fields sep t).
  - destruct (Ascii.eqb x sep) eqn:E; [discriminate|].
    intros H. specialize (IH H).
    destruct (fields sep (h ++ String sep t)) as [f fs].
    destruct (fields sep t) as [f' fs']. now inversion IH.
Qed.

Lemma split_on_clean sep s : count sep s = 0%nat -> split_on sep s = [s].
Proof. intros H. unfold split_on. now rewrite fields_clean. Qed.

Lemma length_split_on sep s :
  List.length (split_on sep s) = S (count sep s).
Proof.
  unfold split_on. induction s as [|x s IH]; simpl; [reflexivity|].
  destruct (fields sep s) as [f fs].
  destruct (Ascii.eqb x sep); simpl in *; lia.
Qed.

(** The words [s.split()] returns hold no whitespace, so stripping them
    changes nothing. *)
Lemma scan_clean s :
  all_chars (fun c => negb (isspace c)) (fst (scan s)) = true
  /\ Forall (fun w => all_chars (fun c => negb (isspace c)) w = true)
            (snd (scan s)).
Proof.
  induction s as [|x s [IHw IHws]]; simpl; [now split|].
  destruct (scan s) as [w ws]. simpl in *.
  destruct (isspace x) eqn:E; simpl.
  - split; [reflexivity|]. unfold cons_word.
    destruct (is_empty w); [assumption | now constructor].
  - rewrite E. simpl. now split.
Qed.

Lemma split_clean s :
  Forall (fun w => all_chars (fun c => negb (isspace c)) w = true) (split s).
Proof.
  unfold split. destruct (scan_clean s) as [Hw Hws].
  destruct (scan s) as [w ws]. simpl in *. unfold cons_word.
  destruct (is_empty w); [assumption | now constructor].
Qed.

Lemma strip_split_word s w : In w (split s) -> strip w = w.
Proof.
  intros Hin. apply strip_by_clean.
  exact (proj1 (Forall_forall _ _) (split_clean s) w Hin).
Qed.

End SplitFacts.

(* ================================================================== *)
(** ** Facts about the backend *)

Module BackendFacts.

Import Py Spec PyFacts SplitFacts CLIBasedSlurmBackend.

Lemma render_arg_flag kv : render_arg kv = flag kv.
Proof.
  destruct kv as [k [v|]]; unfold flag; simpl; [reflexivity|].
  now rewrite append_nil_r.
Qed.

Lemma fold_flags_prefix a b options :
  fold_left (fun cmd kv => cmd ++ " " ++ flag kv) options (a ++ b)
  = a ++ fold_left (fun cmd kv => cmd ++ " " ++ flag kv) options b.
Proof.
  revert b. induction options as [|kv options IH]; intros b; simpl;
    [reflexivity|].
  now rewrite <- IH, append_assoc.
Qed.

Lemma join_flags x options :
  join " " (x :: map render_arg options)
  = fold_left (fun cmd kv => cmd ++ " " ++ flag kv) options x.
Proof.
  revert x. induction options as [|kv options IH]; intros x;
    [reflexivity|].
  change (join " " (x :: map render_arg (kv :: options)))
    with (x ++ " " ++ join " " (render_arg kv :: map render_arg options)).
  rewrite IH, render_arg_flag. simpl fold_left.
  rewrite <- !fold_flags_prefix. reflexivity.
Qed.

(** The command [kill] hands to the executor, and what it makes of the
    answer: nothing. *)
Lemma kill_issues run jobid grace_seconds :
  kill run jobid grace_seconds
  = (cmd <- _kill_command jobid ;;
     _ <- run cmd None grace_seconds ;;
     ret tt).
Proof.
  unfold kill, _run_remote_command.
  destruct (_kill_command jobid) as [e|cmd]; [reflexivity|]. cbn [bind].
  now destruct (run cmd None grace_seconds).
Qed.

Lemma kill_ignores_result run jobid grace_seconds cmd r :
  _kill_command jobid = inr cmd ->
  run cmd None grace_seconds = inr r ->
  kill run jobid grace_seconds = inr tt.
Proof. intros Hc H. rewrite kill_issues, Hc. cbn [bind]. now rewrite H. Qed.

(** The rendered kill command differs from the scheduler's
    [scancel <jobid>] for every job id: it carries a dollar sign. *)
Lemma kill_command_dollar jobid cmd :
  _kill_command jobid = inr cmd ->
  cmd = "scancel $" ++ decimal jobid
  /\ String.eqb cmd (kill_command jobid) = false.
Proof.
  unfold _kill_command. destruct (str jobid) as [e|s] eqn:E; [discriminate|].
  intros [= <-]. apply str_inr in E as [-> _].
  split; [reflexivity|]. apply String.eqb_neq.
  unfold kill_command. simpl. intros H.
  injection H as H.
  assert (Hc : all_chars (fun c => negb (Ascii.eqb c "$")) (decimal jobid)
               = true)
    by (now apply all_chars_decimal).
  rewrite <- H in Hc. discriminate.
Qed.

Lemma status_of_result_nonzero r :
  exit_status r <> 0 -> status_of_result r = inr UNDEFINED.
Proof.
  intros H. unfold status_of_result.
  apply Z.eqb_neq in H. now rewrite H.
Qed.

Lemma parse_status_short out :
  (List.length (split out) < 2)%nat -> parse_status out = inl ValueError.
Proof.
  unfold parse_status. intros H.
  destruct (split out) as [|t [|u rest]]; simpl in *; [reflexivity ..|lia].
Qed.

Lemma parse_status_words out t u rest :
  split out = t :: u :: rest -> parse_status out = inr (status_of_token t).
Proof.
  intros H. unfold parse_status. rewrite H. simpl.
  rewrite (strip_split_word out t) by (rewrite H; now left).
  reflexivity.
Qed.

(** Parsing raises exactly when stdout has fewer than two words. *)
Lemma parse_status_raises out :
  raises (parse_status out) = true <-> (List.length (split out) < 2)%nat.
Proof.
  split.
  - destruct (split out) as [|t [|u rest]] eqn:E; simpl; try lia.
    now rewrite (parse_status_words out t u rest E).
  - intros H. now rewrite parse_status_short.
Qed.

Lemma status_of_result_total r : exists st, status_of_result r = inr st.
Proof.
  unfold status_of_result.
  destruct (negb (exit_status r =? 0)%Z); [now exists UNDEFINED|].
  destruct (parse_status (stdout r)) as [e|st]; simpl; eauto.
Qed.

(** With exit status 0 and two words on stdout, the first word decides. *)
Lemma status_of_result_words r t u rest :
  exit_status r = 0 -> split (stdout r) = t :: u :: rest ->
  status_of_result r = inr (status_of_token t).
Proof.
  intros H0 Hw. unfold status_of_result. rewrite H0. simpl.
  now rewrite (parse_status_words _ t u rest Hw).
Qed.

End BackendFacts.

(* ================================================================== *)
(** ** Facts about the PID codec and the monitor *)

Module JobFacts.

Import Py Spec PyFacts SplitFacts SlurmJob.

(** Decoding a handle with exactly one separator reads the job id off
    the trailing segment. *)
Lemma parse_one_separator h t :
  count ":" h = 0%nat -> count ":" t = 0%nat ->
  _parse_infrastructure_pid (h ++ ":" ++ t)
  = (n <- int t ;; ret (h, n)).
Proof.
  intros Hh Ht. unfold _parse_infrastructure_pid.
  change (h ++ ":" ++ t) with (h ++ String ":" t).
  now rewrite split_on_app, split_on_clean.
Qed.

Lemma parse_wrong_separators s :
  count ":" s <> 1%nat -> _parse_infrastructure_pid s = inl ValueError.
Proof.
  intros H. unfold _parse_infrastructure_pid.
  pose proof (length_split_on ":" s) as L.
  destruct (split_on ":" s) as [|a [|b [|c l]]]; simpl in L;
    try reflexivity.
  lia.
Qed.

Lemma parse_bad_segment h t :
  int t = inl ValueError ->
  _parse_infrastructure_pid (h ++ ":" ++ t) = inl ValueError.
Proof.
  intros Hint.
  destruct (Nat.eq_dec (count ":" (h ++ ":" ++ t)) 1) as [E|E];
    [|now apply parse_wrong_separators].
  change (h ++ ":" ++ t) with (h ++ String ":" t) in E.
  rewrite count_app in E. simpl in E.
  rewrite parse_one_separator by lia. now rewrite Hint.
Qed.

Lemma round_trip host jobid pid :
  count ":" host = 0%nat ->
  _get_infrastructure_pid host jobid = inr pid ->
  _parse_infrastructure_pid pid = inr (host, jobid).
Proof.
  intros Hh. unfold _get_infrastructure_pid.
  destruct (str jobid) as [e|s] eqn:E; [discriminate|].
  cbv zeta. cbn [bind ret]. intros [= <-].
  change (host ++ String ":" s) with (host ++ ":" ++ s).
  rewrite parse_one_separator, (int_str _ _ E); [reflexivity | assumption |].
  apply str_inr in E as [-> _].
  apply count_all_chars. now apply all_chars_decimal.
Qed.


(** *** The clock *)

Lemma Qltb_lt x y : Qltb x y = true <-> (x < y)%Q.
Proof.
  unfold Qltb. rewrite negb_true_iff. split.
  - intros H. apply Qnot_le_lt. intros Hle.
    apply Qle_bool_iff in Hle. congruence.
  - intros H. destruct (Qle_bool y x) eqn:E; [|reflexivity].
    apply Qle_bool_iff in E. exfalso. exact (Qlt_not_le _ _ H E).
Qed.

Lemma Qltb_ge x y : Qltb x y = false <-> (y <= x)%Q.
Proof.
  unfold Qltb. rewrite negb_false_iff. apply Qle_bool_iff.
Qed.

(** *** One poll *)

Section Poll.

Variables (jobid polling_seconds : Z) (startWatching : Q).
Variables (f : flags) (a : answer) (rest : list answer) (w : world).

Hypothesis running : completed f = false.

(** The world once the backend has answered. *)
Local Abbreviation w1 := (snd (backend_status jobid a w)).

Lemma loop_never_seen_early :
  submitted f = false -> fst a = UNDEFINED ->
  Qltb (time w1 - startWatching) (inject_Z polling_seconds) = true ->
  loop jobid polling_seconds startWatching f (a :: rest) w
  = loop jobid polling_seconds startWatching f rest
         (emit (LogError jobid) w1).
Proof.
  intros Hs Ha Ht. cbn [loop]. rewrite running.
  unfold backend_status in *. cbn [snd] in Ht. unfold iteration.
  rewrite Ha, Hs. cbn [SlurmJobStatus_eqb negb andb].
  unfold time in *. cbn [now emit] in *. now rewrite Ht.
Qed.

Lemma loop_never_seen_late :
  submitted f = false -> fst a = UNDEFINED ->
  Qltb (time w1 - startWatching) (inject_Z polling_seconds) = false ->
  loop jobid polling_seconds startWatching f (a :: rest) w
  = (Returned (-1), emit (LogError jobid) w1).
Proof.
  intros Hs Ha Ht. cbn [loop]. rewrite running.
  unfold backend_status in *. cbn [snd] in Ht. unfold iteration.
  rewrite Ha, Hs. cbn [SlurmJobStatus_eqb negb andb].
  unfold time in *. cbn [now emit] in *. now rewrite Ht.
Qed.

Lemma loop_finished :
  fst a = COMPLETED \/ (fst a = UNDEFINED /\ submitted f = true) ->
  loop jobid polling_seconds startWatching f (a :: rest) w
  = (Returned 0, emit (LogInfo jobid) w1).
Proof.
  intros [Ha | [Ha Hs]]; cbn [loop]; rewrite running;
    unfold backend_status, iteration; rewrite Ha, ?Hs; reflexivity.
Qed.

Lemma loop_failed :
  fst a = FAILED ->
  loop jobid polling_seconds startWatching f (a :: rest) w
  = (Returned (-1), emit (LogWarn jobid) w1).
Proof.
  intros Ha. cbn [loop]. rewrite running.
  unfold backend_status, iteration. rewrite Ha. reflexivity.
Qed.

Lemma loop_waiting :
  fst a = PENDING \/ fst a = RUNNING \/ fst a = PREEMPTED
  \/ fst a = UNKNOWN ->
  loop jobid polling_seconds startWatching f (a :: rest) w
  = loop jobid polling_seconds startWatching
         {| completed := false; submitted := true |} rest
         (sleep polling_seconds w1).
Proof.
  intros [Ha | [Ha | [Ha | Ha]]]; cbn [loop]; rewrite running;
    unfold backend_status, iteration; rewrite Ha, running; reflexivity.
Qed.

End Poll.

(** *** Polls inside the grace window *)

Lemma latency_nonneg (us : list answer) :
  Forall (fun u => fst u = UNDEFINED /\ (0 <= snd u)%Q) us ->
  (0 <= Notions.total_latency us)%Q.
Proof.
  induction 1 as [|u us [_ Hu] _ IH]; [cbn; lra|].
  change (Notions.total_latency (u :: us))
    with (snd u + Notions.total_latency us)%Q. lra.
Qed.

Lemma now_after_unseen jobid (us : list answer) :
  forall w,
  (now (Notions.after_unseen jobid us w)
   == now w + Notions.total_latency us)%Q.
Proof.
  induction us as [|u us IH]; intros w.
  - cbn. ring.
  - change (Notions.after_unseen jobid (u :: us) w)
      with (Notions.after_unseen jobid us
              (emit (LogError jobid) (snd (backend_status jobid u w)))).
    rewrite IH. cbn [emit backend_status snd now].
    change (Notions.total_latency (u :: us))
      with (snd u + Notions.total_latency us)%Q. ring.
Qed.

Lemma sleeps_after_unseen jobid (us : list answer) :
  forall w,
  sleeps (trace (Notions.after_unseen jobid us w)) = sleeps (trace w).
Proof.
  induction us as [|u us IH]; intros w; [reflexivity|].
  change (Notions.after_unseen jobid (u :: us) w)
    with (Notions.after_unseen jobid us
            (emit (LogError jobid) (snd (backend_status jobid u w)))).
  rewrite IH. cbn [emit backend_status snd trace].
  unfold sleeps. rewrite !filter_app, !length_app. cbn. lia.
Qed.

(** Never-seen UNDEFINED polls that stay inside the window are each
    followed at once by the next poll. *)
Lemma loop_unseen_prefix (us : list answer) :
  forall jobid ps start f rest w,
  completed f = false -> submitted f = false ->
  Forall (fun u => fst u = UNDEFINED /\ (0 <= snd u)%Q) us ->
  (now w - start + Notions.total_latency us < inject_Z ps)%Q ->
  loop jobid ps start f (us ++ rest) w
  = loop jobid ps start f rest (Notions.after_unseen jobid us w).
Proof.
  induction us as [|u us IH]; intros jobid ps start f rest w Hc Hs Hus Ht;
    [reflexivity|].
  inversion Hus as [|? ? [Hu Hl] Hus']; subst.
  pose proof (latency_nonneg us Hus') as Hpos.
  change (Notions.total_latency (u :: us))
    with (snd u + Notions.total_latency us)%Q in Ht.
  change ((u :: us) ++ rest)%list with (u :: (us ++ rest))%list.
  rewrite loop_never_seen_early; try assumption.
  - rewrite IH; try assumption; [reflexivity|].
    cbn [emit backend_status snd now]. lra.
  - apply Qltb_lt. unfold time. cbn [backend_status snd emit now]. lra.
Qed.

(** *** Exit codes *)

Lemma iteration_codes jobid polling_seconds startWatching f status w code w' :
  iteration jobid polling_seconds startWatching f status w
  = (Return code, w') ->
  code = 0 \/ code = -1.
Proof.
  unfold iteration.
  destruct (SlurmJobStatus_eqb status UNDEFINED && negb (submitted f)).
  - destruct (Qltb _ _); intros [= <- _]; now right.
  - destruct (_ || _); [intros [= <- _]; now left|].
    destruct (SlurmJobStatus_eqb status FAILED); intros [= <- _]; now right.
Qed.

Lemma loop_codes answers :
  forall jobid polling_seconds startWatching f w code,
  fst (loop jobid polling_seconds startWatching f answers w)
  = Returned code ->
  code = 0 \/ code = -1.
Proof.
  induction answers as [|a rest IH]; intros jobid ps start f w code;
    cbn [loop]; destruct (completed f).
  - intros [= <-]. now right.
  - discriminate.
  - intros [= <-]. now right.
  - unfold backend_status.
    destruct (iteration jobid ps start f (fst a) _) as [[f'|c] w2] eqn:E.
    + apply IH.
    + intros [= <-]. exact (iteration_codes _ _ _ _ _ _ _ _ E).
Qed.

(** *** Sleeping *)

Lemma sleeps_app t u : sleeps (t ++ u) = (sleeps t + sleeps u)%nat.
Proof. unfold sleeps. now rewrite filter_app, length_app. Qed.

End JobFacts.

(* ================================================================== *)
(** ** The claims *)

Import Py Spec CLIBasedSlurmBackend SlurmJob.
Import PyFacts SplitFacts BackendFacts JobFacts.

(** C1: the kill operation hands the executor the command
    [scancel <jobId>].  The code renders [f"scancel ${jobid}"], so for job
    123 the command is [scancel $123], not [scancel 123]: the dollar sign
    of another language's template syntax is part of the command. *)
Theorem kill_command_at_123 :
  _kill_command 123 = inr "scancel $123"
  /\ kill_command 123 = "scancel 123"
  /\ match _kill_command 123 with
     | inr cmd => String.eqb cmd (kill_command 123)
     | inl _ => true
     end = false.
Proof. repeat split. Qed.

(** C2: the mapping of the status word is a total function of the word
    alone; by exact, case-sensitive match it sends PENDING, COMPLETED,
    PREEMPTED, FAILED and RUNNING to the status of that name and every
    other word, such as BOOT_FAIL, to UNKNOWN. *)
Theorem status_mapping (s : string) :
  (status_of_token s = PENDING <-> s = "PENDING")
  /\ (status_of_token s = COMPLETED <-> s = "COMPLETED")
  /\ (status_of_token s = PREEMPTED <-> s = "PREEMPTED")
  /\ (status_of_token s = FAILED <-> s = "FAILED")
  /\ (status_of_token s = RUNNING <-> s = "RUNNING")
  /\ (status_of_token s = UNKNOWN <->
      s <> "PENDING" /\ s <> "COMPLETED" /\ s <> "PREEMPTED"
      /\ s <> "FAILED" /\ s <> "RUNNING")
  /\ status_of_token s <> UNDEFINED
  /\ status_of_token "BOOT_FAIL" = UNKNOWN
  /\ status_of_token "pending" = UNKNOWN
  /\ status_of_token "RUNNING+" = UNKNOWN.
Proof.
  unfold status_of_token.
  destruct (String.eqb_spec s "PENDING");
  destruct (String.eqb_spec s "COMPLETED");
  destruct (String.eqb_spec s "PREEMPTED");
  destruct (String.eqb_spec s "FAILED");
  destruct (String.eqb_spec s "RUNNING");
  try congruence; cbn; intuition congruence.
Qed.

(** C3: whatever the remote command returned, [status] does not raise.
    A non-zero exit status gives UNDEFINED whatever stdout holds; exit
    status zero with fewer than two words on stdout, the one way parsing
    can fail, gives UNDEFINED too. *)
Theorem status_never_raises (r : SSHCompletedProcess) :
  (exists st, status_of_result r = inr st)
  /\ (exit_status r <> 0 -> status_of_result r = inr UNDEFINED)
  /\ (exit_status r = 0 -> (List.length (split (stdout r)) < 2)%nat ->
      status_of_result r = inr UNDEFINED)
  /\ (exit_status r = 0 -> raises (parse_status (stdout r)) = true ->
      status_of_result r = inr UNDEFINED)
  /\ (forall run jobid grace_seconds cmd,
      _status_command jobid = inr cmd ->
      run cmd None grace_seconds = inr r ->
      status run jobid grace_seconds = status_of_result r).
Proof.
  split; [apply status_of_result_total|].
  split; [apply status_of_result_nonzero|].
  split; [|split].
  - intros H0 Hlen. unfold status_of_result. rewrite H0.
    now rewrite parse_status_short.
  - intros H0 Hr. unfold status_of_result. rewrite H0.
    apply parse_status_raises in Hr. now rewrite parse_status_short.
  - intros run jobid g cmd Hcmd Hrun. unfold status, _run_remote_command.
    rewrite Hcmd. cbn [bind]. now rewrite Hrun.
Qed.

Lemma status_never_raises_witness :
  status_of_result {| exit_status := 1; stdout := "RUNNING 0:0";
                      stderr := "" |} = inr UNDEFINED
  /\ status_of_result {| exit_status := 0; stdout := "RUNNING";
                         stderr := "" |} = inr UNDEFINED.
Proof.
  split.
  - apply (proj1 (proj2 (status_never_raises _))). discriminate.
  - apply (proj1 (proj2 (proj2 (status_never_raises _))));
      [reflexivity | cbn; lia].
Defined.




(** C5: decoding raises, and returns no pair, when the handle holds no
    colon, when it holds more than one, and when [int] rejects what
    follows the colon, as it does whenever that segment holds a character
    that is no digit, underscore, sign or whitespace; so decoding raises
    on "a:b:c", "noColon" and "host:notanumber".  The exception is
    Python's ValueError. *)
Theorem pid_decode_malformed :
  (forall s, count ":" s = 0%nat ->
             _parse_infrastructure_pid s = inl ValueError)
  /\ (forall s, (1 < count ":" s)%nat ->
                _parse_infrastructure_pid s = inl ValueError)
  /\ (forall h t, int t = inl ValueError ->
                  _parse_infrastructure_pid (h ++ ":" ++ t) = inl ValueError)
  /\ (forall h t, all_chars literal_char t = false ->
                  _parse_infrastructure_pid (h ++ ":" ++ t) = inl ValueError)
  /\ _parse_infrastructure_pid "a:b:c" = inl ValueError
  /\ _parse_infrastructure_pid "noColon" = inl ValueError
  /\ _parse_infrastructure_pid "host:notanumber" = inl ValueError.
Proof.
  split; [intros s H; apply parse_wrong_separators; lia|].
  split; [intros s H; apply parse_wrong_separators; lia|].
  split; [apply parse_bad_segment|].
  split; [intros h t H; apply parse_bad_segment; now apply int_rejects|].
  repeat split.
Qed.

Lemma pid_decode_malformed_witness :
  _parse_infrastructure_pid "" = inl ValueError
  /\ _parse_infrastructure_pid "::" = inl ValueError
  /\ _parse_infrastructure_pid ("host" ++ ":" ++ "") = inl ValueError
  /\ _parse_infrastructure_pid ("host" ++ ":" ++ "12a") = inl ValueError.
Proof.
  split; [|split; [|split]].
  - apply (proj1 pid_decode_malformed). reflexivity.
  - apply (proj1 (proj2 pid_decode_malformed)). cbn. lia.
  - apply (proj1 (proj2 (proj2 pid_decode_malformed))). reflexivity.
  - apply (proj1 (proj2 (proj2 (proj2 pid_decode_malformed)))). reflexivity.
Defined.

(** C6: the submit command is "sbatch --parsable" followed, for each
    option in insertion order, by a space and the option's flag: --key
    when the value is None, --key=value otherwise.  The options nodes=1,
    parsable=None give --nodes=1 and then --parsable. *)
Theorem submit_command_rendering :
  (forall slurm_kwargs,
     _submit_command slurm_kwargs = submit_command slurm_kwargs)
  /\ (forall k, flag (k, None) = "--" ++ k)
  /\ (forall k v, flag (k, Some v) = "--" ++ k ++ "=" ++ v)
  /\ _submit_command [("nodes", Some "1"); ("parsable", None)]
     = "sbatch --parsable --nodes=1 --parsable"
  /\ occurs_at 18 "--nodes=1"
       (_submit_command [("nodes", Some "1"); ("parsable", None)]) = true
  /\ occurs_at 28 "--parsable"
       (_submit_command [("nodes", Some "1"); ("parsable", None)]) = true.
Proof.
  split.
  - intros kw. unfold _submit_command, submit_command.
    change (["sbatch"; "--parsable"] ++ map render_arg kw)%list
      with ("sbatch" :: "--parsable" :: map render_arg kw).
    change (join " " ("sbatch" :: "--parsable" :: map render_arg kw))
      with ("sbatch" ++ " " ++ join " " ("--parsable" :: map render_arg kw)).
    rewrite join_flags.
    change "sbatch --parsable" with ("sbatch " ++ "--parsable") at 1.
    now rewrite fold_flags_prefix.
  - split; [intros k; unfold flag; simpl; now rewrite append_nil_r|].
    repeat split.
Qed.

(** C7: once the remote command has returned, [submit] returns the
    integer that [int] reads from the stripped stdout, so a job id of at
    most 4300 digits printed with whitespace around it comes back as
    that id, and it raises when [int] rejects the stripped stdout, as it
    does whenever a character that is no digit, underscore, sign or
    whitespace is left in it and whenever it holds more than 4300
    digits.  The exception is Python's ValueError. *)
Theorem submit_parses_stdout
    (run : string -> option string -> Z -> Py.result SSHCompletedProcess)
    (slurm_kwargs : list (string * option string))
    (run_script : option string) (grace_seconds : Z)
    (r : SSHCompletedProcess) :
  run (_submit_command slurm_kwargs) run_script grace_seconds = inr r ->
  (forall n, int (strip (stdout r)) = inr n ->
             submit run slurm_kwargs run_script grace_seconds = inr n)
  /\ (int (strip (stdout r)) = inl ValueError ->
      submit run slurm_kwargs run_script grace_seconds = inl ValueError)
  /\ (all_chars literal_char (strip (stdout r)) = false ->
      submit run slurm_kwargs run_script grace_seconds = inl ValueError)
  /\ (forall n ws1 ws2,
        all_chars isspace ws1 = true -> all_chars isspace ws2 = true ->
        Z.abs n < 10 ^ max_str_digits ->
        stdout r = ws1 ++ decimal n ++ ws2 ->
        submit run slurm_kwargs run_script grace_seconds = inr n)
  /\ (max_str_digits < count_digits (stdout r) ->
      submit run slurm_kwargs run_script grace_seconds = inl ValueError)
  /\ ((exists n, submit run slurm_kwargs run_script grace_seconds = inr n)
      \/ submit run slurm_kwargs run_script grace_seconds = inl ValueError).
Proof.
  intros Hrun.
  assert (E : submit run slurm_kwargs run_script grace_seconds
              = int (strip (stdout r)))
    by (unfold submit, _run_remote_command; now rewrite Hrun).
  rewrite E. split; [trivial|]. split; [trivial|].
  split; [apply int_rejects|]. split; [|split].
  - intros n ws1 ws2 H1 H2 Hn ->. unfold strip.
    rewrite strip_by_padded; [| assumption | | assumption].
    + apply int_decimal. apply count_digits_decimal;
        [unfold max_str_digits; lia | assumption].
    + now apply all_chars_decimal.
  - intros H. apply int_long.
    now rewrite count_digits_int_strip, count_digits_strip.
  - destruct (int (strip (stdout r))) as [e|n] eqn:Ei; [right | left; eauto].
    now rewrite (int_raises_value_error _ _ Ei).
Qed.

Lemma submit_parses_stdout_witness :
  submit (fun _ _ _ => inr {| exit_status := 0;
                              stdout := "4711" ++ String "010" "";
                              stderr := "" |})
         [("nodes", Some "1")] (Some "#!/bin/bash") 30
  = inr 4711
  /\ submit (fun _ _ _ => inr {| exit_status := 0;
                                 stdout := "Submitted batch job 4711";
                                 stderr := "" |})
            [("nodes", Some "1")] (Some "#!/bin/bash") 30
     = inl ValueError.
Proof.
  split.
  - apply (proj1 (submit_parses_stdout _ _ _ _ _ eq_refl)).
    reflexivity.
  - apply (proj1 (proj2 (proj2 (submit_parses_stdout _ _ _ _ _ eq_refl)))).
    reflexivity.
Defined.

(** C8: a poll that reports UNDEFINED for a job never seen before is
    answered by the next poll, with no sleep in between and the loop
    variables as they were, when less than the poll interval has passed
    since the watch began; otherwise the watch returns -1.  Three such
    polls that together take at least the poll interval end in -1, and
    the monitor never sleeps on the way.  Measured on [_watch_job] from
    the moment it starts: as long as the never-seen UNDEFINED polls have
    together taken less than the poll interval, each is followed at once
    by the next poll, the clock moving by the queries alone; the first
    one that ends at or after the poll interval returns -1. *)
Theorem watch_grace_window :
  (forall jobid polling_seconds startWatching f a rest w,
     completed f = false -> submitted f = false -> fst a = UNDEFINED ->
     (time (snd (backend_status jobid a w)) - startWatching
      < inject_Z polling_seconds)%Q ->
     loop jobid polling_seconds startWatching f (a :: rest) w
     = loop jobid polling_seconds startWatching f rest
            (emit (LogError jobid) (snd (backend_status jobid a w))))
  /\ (forall jobid polling_seconds startWatching f a rest w,
     completed f = false -> submitted f = false -> fst a = UNDEFINED ->
     (inject_Z polling_seconds
      <= time (snd (backend_status jobid a w)) - startWatching)%Q ->
     loop jobid polling_seconds startWatching f (a :: rest) w
     = (Returned (-1),
        emit (LogError jobid) (snd (backend_status jobid a w))))
  /\ (forall jobid polling_seconds w l1 l2 l3,
     (inject_Z polling_seconds <= l1 + l2 + l3)%Q ->
     fst (_watch_job [(UNDEFINED, l1); (UNDEFINED, l2); (UNDEFINED, l3)]
                     jobid polling_seconds w) = Returned (-1)
     /\ sleeps (trace (snd (_watch_job
                  [(UNDEFINED, l1); (UNDEFINED, l2); (UNDEFINED, l3)]
                  jobid polling_seconds w)))
        = sleeps (trace w))
  /\ (forall jobid polling_seconds w us rest,
     Forall (fun u => fst u = UNDEFINED /\ (0 <= snd u)%Q) us ->
     (Notions.total_latency us < inject_Z polling_seconds)%Q ->
     _watch_job (us ++ rest) jobid polling_seconds w
     = loop jobid polling_seconds (now w)
            {| completed := false; submitted := false |} rest
            (Notions.after_unseen jobid us w)
     /\ sleeps (trace (Notions.after_unseen jobid us w)) = sleeps (trace w)
     /\ (now (Notions.after_unseen jobid us w)
         == now w + Notions.total_latency us)%Q)
  /\ (forall jobid polling_seconds w us l rest,
     Forall (fun u => fst u = UNDEFINED /\ (0 <= snd u)%Q) us ->
     (Notions.total_latency us < inject_Z polling_seconds)%Q ->
     (inject_Z polling_seconds <= Notions.total_latency us + l)%Q ->
     _watch_job (us ++ (UNDEFINED, l) :: rest) jobid polling_seconds w
     = (Returned (-1),
        emit (LogError jobid)
          (snd (backend_status jobid (UNDEFINED, l)
                  (Notions.after_unseen jobid us w))))).
Proof.
  split; [|split; [|split; [|split]]].
  - intros jobid ps start f a rest w Hc Hs Ha Ht.
    apply loop_never_seen_early; try assumption. now apply Qltb_lt.
  - intros jobid ps start f a rest w Hc Hs Ha Ht.
    apply loop_never_seen_late; try assumption. now apply Qltb_ge.
  - intros jobid ps w l1 l2 l3 H. unfold _watch_job.
    set (f0 := {| completed := false; submitted := false |}).
    set (a1 := (UNDEFINED, l1)). set (a2 := (UNDEFINED, l2)).
    set (a3 := (UNDEFINED, l3)).
    assert (done : forall w', sleeps (trace w') = sleeps (trace w) ->
      forall a, fst (Returned (-1),
                     emit (LogError jobid) (snd (backend_status jobid a w')))
                = Returned (-1)
             /\ sleeps (trace (snd (Returned (-1),
                     emit (LogError jobid) (snd (backend_status jobid a w')))))
                = sleeps (trace w)).
    { intros w' Hw' a. split; [reflexivity|].
      cbn [snd trace emit backend_status]. rewrite !sleeps_app, Hw'.
      cbn. lia. }
    assert (quiet : forall w', sleeps (trace w') = sleeps (trace w) ->
      forall a, sleeps (trace (emit (LogError jobid)
                                 (snd (backend_status jobid a w'))))
                = sleeps (trace w)).
    { intros w' Hw' a. cbn [snd trace emit backend_status].
      rewrite !sleeps_app, Hw'. cbn. lia. }
    destruct (Qltb (time (snd (backend_status jobid a1 w)) - time w)
                   (inject_Z ps)) eqn:E1;
      [rewrite loop_never_seen_early by easy
      |rewrite loop_never_seen_late by easy; now apply done].
    set (w1 := emit (LogError jobid) (snd (backend_status jobid a1 w))).
    assert (Hw1 : sleeps (trace w1) = sleeps (trace w)) by now apply quiet.
    destruct (Qltb (time (snd (backend_status jobid a2 w1)) - time w)
                   (inject_Z ps)) eqn:E2;
      [rewrite loop_never_seen_early by easy
      |rewrite loop_never_seen_late by easy; now apply done].
    set (w2 := emit (LogError jobid) (snd (backend_status jobid a2 w1))).
    assert (Hw2 : sleeps (trace w2) = sleeps (trace w)) by now apply quiet.
    destruct (Qltb (time (snd (backend_status jobid a3 w2)) - time w)
                   (inject_Z ps)) eqn:E3;
      [|rewrite loop_never_seen_late by easy; now apply done].
    apply Qltb_lt in E3. unfold time in E3.
    cbn [snd backend_status emit now w2 w1 a1 a2 a3] in E3.
    exfalso. lra.
  - intros jobid ps w us rest Hus Ht. unfold _watch_job. split; [|split].
    + apply loop_unseen_prefix; try assumption; try reflexivity.
      unfold time. lra.
    + apply sleeps_after_unseen.
    + apply now_after_unseen.
  - intros jobid ps w us l rest Hus Ht Hl. unfold _watch_job.
    rewrite loop_unseen_prefix; try assumption; try reflexivity;
      [|unfold time; lra].
    apply loop_never_seen_late; try reflexivity.
    apply Qltb_ge. unfold time. cbn [backend_status snd emit now].
    rewrite now_after_unseen. lra.
Qed.

Lemma watch_grace_window_witness :
  fst (_watch_job [(UNDEFINED, 12 # 1); (UNDEFINED, 12 # 1);
                   (UNDEFINED, 12 # 1)]%Q
                  4711 30 {| now := (1000 # 1)%Q; trace := [] |})
  = Returned (-1)
  /\ fst (_watch_job ([(UNDEFINED, (12 # 1)%Q); (UNDEFINED, (12 # 1)%Q)]
                      ++ [(RUNNING, (1 # 1)%Q); (COMPLETED, (1 # 1)%Q)])%list
                     4711 30 {| now := (1000 # 1)%Q; trace := [] |})
     = Returned 0
  /\ fst (_watch_job ([(UNDEFINED, (12 # 1)%Q); (UNDEFINED, (12 # 1)%Q)]
                      ++ (UNDEFINED, (6 # 1)%Q)
                         :: [(RUNNING, (1 # 1)%Q); (COMPLETED, (1 # 1)%Q)])%list
                     4711 30 {| now := (1000 # 1)%Q; trace := [] |})
     = Returned (-1).
Proof.
  split; [|split].
  - apply (proj1 (proj2 (proj2 watch_grace_window)) 4711 30
             {| now := (1000 # 1)%Q; trace := [] |}
             (12 # 1)%Q (12 # 1)%Q (12 # 1)%Q
             ltac:(vm_compute; discriminate)).
  - exact (eq_trans
             (f_equal fst
                (proj1 (proj1 (proj2 (proj2 (proj2 watch_grace_window)))
                          4711 30 {| now := (1000 # 1)%Q; trace := [] |}
                          [(UNDEFINED, (12 # 1)%Q); (UNDEFINED, (12 # 1)%Q)]
                          [(RUNNING, (1 # 1)%Q); (COMPLETED, (1 # 1)%Q)]
                          ltac:(repeat constructor; discriminate)
                          ltac:(reflexivity))))
             eq_refl).
  - exact (f_equal fst
             (proj2 (proj2 (proj2 (proj2 watch_grace_window)))
                4711 30 {| now := (1000 # 1)%Q; trace := [] |}
                [(UNDEFINED, (12 # 1)%Q); (UNDEFINED, (12 # 1)%Q)]
                (6 # 1)%Q
                [(RUNNING, (1 # 1)%Q); (COMPLETED, (1 # 1)%Q)]
                ltac:(repeat constructor; discriminate)
                ltac:(reflexivity) ltac:(vm_compute; discriminate))).
Defined.

(** C9: outside the grace-window rules a poll ends the watch with 0 when
    it reports COMPLETED, or UNDEFINED for a job seen before, and with -1
    when it reports FAILED; on PENDING, RUNNING, PREEMPTED and UNKNOWN the
    monitor sleeps one poll interval and polls again.  Hence
    [Pending, Running, Completed] gives 0, [Pending, Running, Failed]
    gives -1, [Running, Undefined] gives 0, and no run returns a code
    other than 0 and -1. *)
Theorem watch_terminal_reduction :
  (forall jobid polling_seconds startWatching f a rest w,
     completed f = false ->
     fst a = COMPLETED \/ (fst a = UNDEFINED /\ submitted f = true) ->
     loop jobid polling_seconds startWatching f (a :: rest) w
     = (Returned 0, emit (LogInfo jobid) (snd (backend_status jobid a w))))
  /\ (forall jobid polling_seconds startWatching f a rest w,
     completed f = false -> fst a = FAILED ->
     loop jobid polling_seconds startWatching f (a :: rest) w
     = (Returned (-1),
        emit (LogWarn jobid) (snd (backend_status jobid a w))))
  /\ (forall jobid polling_seconds startWatching f a rest w,
     completed f = false ->
     fst a = PENDING \/ fst a = RUNNING \/ fst a = PREEMPTED
     \/ fst a = UNKNOWN ->
     loop jobid polling_seconds startWatching f (a :: rest) w
     = loop jobid polling_seconds startWatching
            {| completed := false; submitted := true |} rest
            (sleep polling_seconds (snd (backend_status jobid a w))))
  /\ (forall jobid polling_seconds w l1 l2 l3,
     fst (_watch_job [(PENDING, l1); (RUNNING, l2); (COMPLETED, l3)]
                     jobid polling_seconds w) = Returned 0)
  /\ (forall jobid polling_seconds w l1 l2 l3,
     fst (_watch_job [(PENDING, l1); (RUNNING, l2); (FAILED, l3)]
                     jobid polling_seconds w) = Returned (-1))
  /\ (forall jobid polling_seconds w l1 l2,
     fst (_watch_job [(RUNNING, l1); (UNDEFINED, l2)]
                     jobid polling_seconds w) = Returned 0)
  /\ (forall answers jobid polling_seconds w code,
     fst (_watch_job answers jobid polling_seconds w) = Returned code ->
     code = 0 \/ code = -1).
Proof.
  split; [intros; now apply loop_finished|].
  split; [intros; now apply loop_failed|].
  split; [intros; now apply loop_waiting|].
  split; [reflexivity|].
  split; [reflexivity|].
  split; [reflexivity|].
  intros answers jobid ps w code. unfold _watch_job. apply loop_codes.
Qed.

Lemma watch_terminal_reduction_witness :
  fst (loop 4711 30 (0 # 1)%Q {| completed := false; submitted := true |}
            [(UNDEFINED, 1 # 2)%Q; (RUNNING, 1 # 2)%Q]
            {| now := (90 # 1)%Q; trace := [] |})
  = Returned 0
  /\ fst (loop 4711 30 (0 # 1)%Q {| completed := false; submitted := false |}
               [(PREEMPTED, 1 # 2)%Q; (FAILED, 1 # 2)%Q]
               {| now := (0 # 1)%Q; trace := [] |})
     = Returned (-1).
Proof.
  split.
  - rewrite (proj1 watch_terminal_reduction);
      [reflexivity | reflexivity | right; split; reflexivity].
  - rewrite (proj1 (proj2 (proj2 watch_terminal_reduction)));
      [ | reflexivity | right; right; left; reflexivity].
    rewrite (proj1 (proj2 watch_terminal_reduction)); reflexivity.
Defined.

(** C10: [submit] looks at nothing but stdout.  Two remote results with
    the same stdout give the same job id or the same exception, whatever
    their exit status and stderr; a submit command that exits non-zero
    and prints something [int] reads as an integer is reported as
    submitted under that id. *)
Theorem submit_depends_on_stdout_only :
  (forall run1 run2 slurm_kwargs run_script grace_seconds r1 r2,
     run1 (_submit_command slurm_kwargs) run_script grace_seconds = inr r1 ->
     run2 (_submit_command slurm_kwargs) run_script grace_seconds = inr r2 ->
     stdout r1 = stdout r2 ->
     submit run1 slurm_kwargs run_script grace_seconds
     = submit run2 slurm_kwargs run_script grace_seconds)
  /\ (forall run slurm_kwargs run_script grace_seconds code err out n,
     run (_submit_command slurm_kwargs) run_script grace_seconds
     = inr {| exit_status := code; stdout := out; stderr := err |} ->
     int (strip out) = inr n ->
     submit run slurm_kwargs run_script grace_seconds = inr n)
  /\ submit (fun _ _ _ => inr {| exit_status := 1;
                                 stdout := "42" ++ String "010" "";
                                 stderr := "sbatch: error" |})
            [] None 30
     = inr 42.
Proof.
  split; [|split].
  - intros run1 run2 kw script g r1 r2 H1 H2 Hout.
    unfold submit, _run_remote_command, jobid_of_result.
    rewrite H1, H2. cbn [bind ret]. now rewrite Hout.
  - intros run kw script g code err out n H Hint.
    unfold submit, _run_remote_command, jobid_of_result.
    rewrite H. cbn [bind ret stdout]. exact Hint.
  - reflexivity.
Qed.

Lemma submit_depends_on_stdout_only_witness :
  submit (fun _ _ _ => inr {| exit_status := 0; stdout := "17";
                              stderr := "" |}) [] None 30
  = submit (fun _ _ _ => inr {| exit_status := 1; stdout := "17";
                                stderr := "sbatch: error" |}) [] None 30
  /\ submit (fun _ _ _ => inr {| exit_status := 127; stdout := " 17 ";
                                 stderr := "" |}) [] None 30
     = inr 17.
Proof.
  split.
  - apply (proj1 submit_depends_on_stdout_only
             (fun _ _ _ => inr {| exit_status := 0; stdout := "17";
                                  stderr := "" |})
             (fun _ _ _ => inr {| exit_status := 1; stdout := "17";
                                  stderr := "sbatch: error" |})
             [] None 30
             {| exit_status := 0; stdout := "17"; stderr := "" |}
             {| exit_status := 1; stdout := "17"; stderr := "sbatch: error" |}
             eq_refl eq_refl eq_refl).
  - apply (proj1 (proj2 submit_depends_on_stdout_only)
             (fun _ _ _ => inr {| exit_status := 127; stdout := " 17 ";
                                  stderr := "" |})
             [] None 30 127 "" " 17 " 17 eq_refl eq_refl).
Defined.

(* ================================================================== *)
(** ** Facts about dicts *)

Module DictFacts.

Import PyDict.

Section Laws.

Context {V : Type}.

Implicit Types (d e : dict V) (k : string) (v : V).

Lemma get_set_same d k v : get (set d k v) k = Some v.
Proof.
  induction d as [|[k' v'] d IH]; simpl.
  - now rewrite String.eqb_refl.
  - destruct (String.eqb k' k) eqn:E; simpl; now rewrite E.
Qed.

Lemma get_set_other d k k' v : k <> k' -> get (set d k v) k' = get d k'.
Proof.
  intros Hk. induction d as [|[k0 v0] d IH]; simpl.
  - apply String.eqb_neq in Hk. now rewrite Hk.
  - destruct (String.eqb k0 k) eqn:E; simpl.
    + apply String.eqb_eq in E. subst k0.
      apply String.eqb_neq in Hk. now rewrite Hk.
    + now rewrite IH.
Qed.

Lemma get_none d k : get d k = None <-> ~ In k (keys d).
Proof.
  induction d as [|[k' v'] d IH]; simpl; [tauto|].
  destruct (String.eqb_spec k' k); [|rewrite IH]; intuition congruence.
Qed.

Lemma get_in d k v : NoDup (keys d) -> (get d k = Some v <-> In (k, v) d).
Proof.
  induction d as [|[k' v'] d IH]; simpl; [intuition congruence|].
  intros Hnd. inversion Hnd as [|? ? Hnotin Hnd']; subst.
  destruct (String.eqb_spec k' k) as [->|Hne].
  - split; [intros [= ->]; now left|].
    intros [[= ->]|Hin]; [reflexivity|].
    exfalso. apply Hnotin. unfold keys.
    change k with (fst (k, v)). now apply in_map.
  - rewrite (IH Hnd'). intuition congruence.
Qed.

Lemma keys_set_present d k v : In k (keys d) -> keys (set d k v) = keys d.
Proof.
  induction d as [|[k' v'] d IH]; simpl; [tauto|].
  destruct (String.eqb_spec k' k) as [->|Hne]; [reflexivity|].
  intros [?|Hin]; [congruence|]. simpl. now rewrite IH.
Qed.

Lemma keys_set_absent d k v :
  ~ In k (keys d) -> keys (set d k v) = (keys d ++ [k])%list.
Proof.
  induction d as [|[k' v'] d IH]; simpl; [reflexivity|].
  destruct (String.eqb_spec k' k) as [->|Hne]; [tauto|].
  intros Hn. simpl. rewrite IH; tauto.
Qed.

Lemma NoDup_set d k v : NoDup (keys d) -> NoDup (keys (set d k v)).
Proof.
  intros Hnd. destruct (in_dec string_dec k (keys d)) as [Hin|Hout].
  - now rewrite keys_set_present.
  - rewrite keys_set_absent by assumption.
    apply NoDup_app; [assumption | repeat constructor; tauto |].
    intros x Hx [<-|[]]. contradiction.
Qed.

Lemma update_snoc d e k v :
  update d (e ++ [(k, v)])%list = set (update d e) k v.
Proof. unfold update. now rewrite fold_left_app. Qed.

Lemma NoDup_update d e : NoDup (keys d) -> NoDup (keys (update d e)).
Proof.
  intros Hd. induction e as [|[k v] e IH] using rev_ind; [assumption|].
  rewrite update_snoc. now apply NoDup_set.
Qed.

(** Looking a key up in the reversed items gives its only binding. *)
Lemma get_rev d k : NoDup (keys d) -> get (List.rev d) k = get d k.
Proof.
  intros Hd.
  assert (Hr : NoDup (keys (List.rev d)))
    by (unfold keys; rewrite map_rev; now apply NoDup_rev).
  destruct (get d k) as [v|] eqn:E.
  - apply (get_in _ _ _ Hr). apply in_rev. rewrite rev_involutive.
    now apply (get_in _ _ _ Hd).
  - apply get_none. apply get_none in E. unfold keys in *.
    rewrite map_rev. now rewrite <- in_rev.
Qed.

(** What [{**d, **e}] holds under a key: [e]'s value when [e] has the
    key, [d]'s otherwise. *)
Lemma get_update d e k :
  NoDup (keys e) ->
  get (update d e) k = match get e k with
                       | Some v => Some v
                       | None => get d k
                       end.
Proof.
  intros He. rewrite <- (get_rev e k He). clear He.
  induction e as [|[k' v'] e IH] using rev_ind; [reflexivity|].
  rewrite update_snoc, rev_app_distr. simpl.
  destruct (String.eqb_spec k' k) as [->|Hne].
  - apply get_set_same.
  - now rewrite get_set_other.
Qed.

End Laws.

Lemma get_lift {V} (d : dict V) k : get (lift d) k = option_map Some (get d k).
Proof.
  induction d as [|[k' v'] d IH]; simpl; [reflexivity|].
  now destruct (String.eqb k' k).
Qed.

Lemma keys_lift {V} (d : dict V) : keys (lift d) = keys d.
Proof. unfold keys, lift. rewrite map_map. reflexivity. Qed.

Section DropNone.

Context {V : Type}.

Let step (acc : dict V) (kv : string * option V) : dict V :=
  match snd kv with
  | Some v => set acc (fst kv) v
  | None => acc
  end.

Lemma NoDup_fold_step (d : dict (option V)) acc :
  NoDup (keys acc) -> NoDup (keys (fold_left step d acc)).
Proof.
  revert acc. induction d as [|[k [v|]] d IH]; intros acc Hacc; simpl;
    [assumption | apply IH; now apply NoDup_set | now apply IH].
Qed.

Lemma get_fold_step (d : dict (option V)) acc k :
  NoDup (keys d) ->
  get (fold_left step d acc) k = match get d k with
                                 | Some (Some v) => Some v
                                 | _ => get acc k
                                 end.
Proof.
  revert acc. induction d as [|[k' o] d IH]; intros acc Hd; [reflexivity|].
  inversion Hd as [|? ? Hnotin Hd']; subst. cbn [fold_left get].
  rewrite (IH _ Hd').
  destruct (String.eqb_spec k' k) as [->|Hne].
  - apply get_none in Hnotin. rewrite Hnotin. unfold step. cbn [fst snd].
    destruct o; [apply get_set_same | reflexivity].
  - destruct (get d k) as [[v|]|]; try reflexivity;
      unfold step; cbn [fst snd]; destruct o; try reflexivity;
      now apply get_set_other.
Qed.

Lemma NoDup_drop_none (d : dict (option V)) : NoDup (keys (drop_none d)).
Proof. apply NoDup_fold_step. constructor. Qed.

(** The comprehension keeps exactly the keys whose value is not [None]. *)
Lemma get_drop_none (d : dict (option V)) k :
  NoDup (keys d) ->
  get (drop_none d) k = match get d k with
                        | Some (Some v) => Some v
                        | _ => None
                        end.
Proof. intros Hd. exact (get_fold_step d [] k Hd). Qed.

End DropNone.

End DictFacts.

(* ================================================================== *)
(** ** More facts about the monitor *)

Module MonitorFacts.

Import SlurmJob Notions JobFacts.

Lemma waiting_cases s :
  waiting s = true ->
  s = PENDING \/ s = RUNNING \/ s = PREEMPTED \/ s = UNKNOWN.
Proof. destruct s; simpl; intros H; try discriminate; tauto. Qed.

Lemma seen_after_seen pre :
  seen_after pre {| completed := false; submitted := true |}
  = {| completed := false; submitted := true |}.
Proof. now destruct pre. Qed.

(** A run of waiting polls only moves the world on. *)
Lemma loop_waiting_prefix pre :
  forall jobid polling_seconds startWatching f rest w,
  completed f = false ->
  Forall (fun a => waiting (fst a) = true) pre ->
  loop jobid polling_seconds startWatching f (pre ++ rest) w
  = loop jobid polling_seconds startWatching (seen_after pre f) rest
         (after_waiting jobid polling_seconds pre w).
Proof.
  induction pre as [|a pre IH]; intros jobid ps start f rest w Hc Hpre;
    [reflexivity|].
  inversion Hpre as [|? ? Ha Hpre']; subst.
  change ((a :: pre) ++ rest)%list with (a :: (pre ++ rest))%list.
  rewrite loop_waiting by (assumption || now apply waiting_cases).
  rewrite IH by (reflexivity || assumption).
  now rewrite seen_after_seen.
Qed.

Lemma seen_after_running pre f :
  completed f = false -> completed (seen_after pre f) = false.
Proof. now destruct pre. Qed.

Lemma sleeps_after_waiting jobid polling_seconds pre :
  forall w,
  sleeps (trace (after_waiting jobid polling_seconds pre w))
  = (sleeps (trace w) + List.length pre)%nat.
Proof.
  induction pre as [|a pre IH]; intros w; cbn [after_waiting fold_left].
  - cbn. lia.
  - fold (after_waiting jobid polling_seconds pre
            (sleep polling_seconds (snd (backend_status jobid a w)))).
    rewrite IH. cbn [sleep backend_status snd emit trace].
    rewrite !sleeps_app. cbn. lia.
Qed.

Lemma now_after_waiting jobid polling_seconds pre :
  forall w,
  (now (after_waiting jobid polling_seconds pre w)
   == now w + total_latency pre
      + inject_Z (Z.of_nat (List.length pre) * Z.max 0 polling_seconds))%Q.
Proof.
  induction pre as [|a pre IH]; intros w; cbn [after_waiting fold_left].
  - cbn [total_latency fold_right List.length Z.of_nat Z.mul].
    unfold inject_Z. ring.
  - fold (after_waiting jobid polling_seconds pre
            (sleep polling_seconds (snd (backend_status jobid a w)))).
    rewrite IH. cbn [sleep backend_status snd emit now].
    cbn [total_latency fold_right List.length].
    fold (total_latency pre).
    rewrite Nat2Z.inj_succ, Z.mul_succ_l, inject_Z_plus. ring.
Qed.

(** Once the job has been seen the clock is never read again: the
    outcome is fixed by the statuses. *)
Lemma loop_status_only answers :
  forall answers' jobid jobid' ps ps' start start' f w w',
  submitted f = true ->
  map fst answers = map fst answers' ->
  fst (loop jobid ps start f answers w)
  = fst (loop jobid' ps' start' f answers' w').
Proof.
  induction answers as [|[s l] rest IH];
    intros [|[s' l'] rest'] jobid jobid' ps ps' start start' f w w' Hs Hm;
    try discriminate; cbn [loop]; destruct (completed f) eqn:Hc;
    try reflexivity.
  cbn [map fst] in Hm. injection Hm as <- Hm.
  cbn [backend_status fst snd]. unfold iteration. rewrite Hs, Hc.
  destruct s; cbn [SlurmJobStatus_eqb negb andb orb]; try reflexivity;
    now apply IH.
Qed.

(** A status other than UNDEFINED is handled the same way whether or not
    the job was seen before. *)
Lemma loop_first_seen jobid ps start f a rest w :
  completed f = false -> fst a <> UNDEFINED ->
  loop jobid ps start f (a :: rest) w
  = loop jobid ps start {| completed := false; submitted := true |}
         (a :: rest) w.
Proof.
  intros Hc Ha. cbn [loop completed]. rewrite Hc.
  cbn [backend_status fst snd]. unfold iteration. rewrite Hc.
  destruct (fst a); cbn [SlurmJobStatus_eqb negb andb orb submitted];
    try reflexivity.
  congruence.
Qed.

Lemma loop_zero_seen answers :
  forall jobid ps start f w,
  fst (loop jobid ps start f answers w) = Returned 0 ->
  submitted f = true \/ Exists (fun a => fst a <> UNDEFINED) answers.
Proof.
  induction answers as [|a rest IH]; intros jobid ps start f w H.
  { cbn [loop] in H. destruct (completed f); discriminate. }
  destruct (completed f) eqn:Hc;
    [cbn [loop] in H; rewrite Hc in H; discriminate|].
  destruct (submitted f) eqn:Hs; [now left|]. right.
  destruct (SlurmJobStatus_eqb (fst a) UNDEFINED) eqn:Ha.
  - assert (Hu : fst a = UNDEFINED) by (destruct (fst a); now try discriminate).
    destruct (Qltb (time (snd (backend_status jobid a w)) - start)
                   (inject_Z ps)) eqn:Ht.
    + rewrite loop_never_seen_early in H by assumption.
      apply IH in H as [H|H]; [congruence | now apply Exists_cons_tl].
    + rewrite loop_never_seen_late in H by assumption. discriminate.
  - apply Exists_cons_hd. intros Hu. rewrite Hu in Ha. discriminate.
Qed.

End MonitorFacts.

(* ================================================================== *)
(** ** More facts about strings and the backend *)

Module BackendMore.

Import Py Spec Notions PyFacts SplitFacts BackendFacts CLIBasedSlurmBackend.

Lemma length_append a b :
  String.length (a ++ b) = (String.length a + String.length b)%nat.
Proof. induction a as [|x a IH]; simpl; [reflexivity | now rewrite IH]. Qed.

Lemma append_inv_head a x y : a ++ x = a ++ y -> x = y.
Proof. induction a as [|c a IH]; simpl; [trivial | intros [= H]; auto]. Qed.

Lemma append_inv_tail x y c : x ++ c = y ++ c -> x = y.
Proof.
  revert y. induction x as [|a x IH]; intros [|b y] H; simpl in H.
  - reflexivity.
  - apply (f_equal String.length) in H. simpl in H.
    rewrite length_append in H. lia.
  - apply (f_equal String.length) in H. simpl in H.
    rewrite length_append in H. lia.
  - injection H as -> H. now rewrite (IH _ H).
Qed.

Lemma str_inj n m s : str n = inr s -> str m = inr s -> n = m.
Proof.
  intros Hn Hm. apply int_str in Hn. apply int_str in Hm.
  rewrite Hn in Hm. now inversion Hm.
Qed.

(** *** Words *)

Lemma scan_word_space w c t :
  all_chars nonspace w = true -> isspace c = true ->
  scan (w ++ String c t) = (w, split t).
Proof.
  intros Hw Hc. induction w as [|x w IH].
  - cbn [append scan]. unfold split. destruct (scan t). now rewrite Hc.
  - cbn [all_chars] in Hw. apply andb_true_iff in Hw as [Hx Hw].
    cbn [append scan]. rewrite (IH Hw).
    unfold nonspace in Hx. apply negb_true_iff in Hx. now rewrite Hx.
Qed.

Lemma scan_word w : all_chars nonspace w = true -> scan w = (w, []).
Proof.
  induction w as [|x w IH]; [reflexivity|]. cbn [all_chars scan].
  intros H. apply andb_true_iff in H as [Hx Hw]. rewrite (IH Hw).
  unfold nonspace in Hx. apply negb_true_iff in Hx. now rewrite Hx.
Qed.

Lemma split_blank pad t :
  all_chars isspace pad = true -> split (pad ++ t) = split t.
Proof.
  induction pad as [|c pad IH]; [reflexivity|]. cbn [all_chars append].
  intros H. apply andb_true_iff in H as [Hc Hpad]. specialize (IH Hpad).
  unfold split in *. cbn [scan]. destruct (scan (pad ++ t)) as [w ws].
  now rewrite Hc.
Qed.

Lemma split_word w c t :
  all_chars nonspace w = true -> w <> "" -> isspace c = true ->
  split (w ++ String c t) = w :: split t.
Proof.
  intros Hw Hne Hc. unfold split at 1. rewrite scan_word_space by assumption.
  unfold cons_word. now destruct w.
Qed.

Lemma split_word_tail w tail :
  all_chars nonspace w = true -> w <> "" -> blank_start tail = true ->
  exists rest, split (w ++ tail) = w :: rest.
Proof.
  intros Hw Hne Ht. destruct tail as [|c t].
  - rewrite append_nil_r. unfold split. rewrite scan_word by assumption.
    exists []. unfold cons_word. now destruct w.
  - exists (split t). now apply split_word.
Qed.

End BackendMore.

(* ================================================================== *)
(** ** Facts about the block's methods *)

Module BlockFacts.

Import Py Spec PyDict Notions PyFacts SplitFacts DictFacts.
Import SlurmJobBlock.

(** *** Environment *)

Lemma envvars_nodup ctx self include_os_environ :
  NoDup (keys (_get_environment_variables ctx self include_os_environ)).
Proof. apply NoDup_drop_none. Qed.

Lemma envvars_get ctx self include_os_environ k :
  NoDup (keys (os_environ ctx)) ->
  NoDup (keys (base_environment ctx)) ->
  NoDup (keys (env self)) ->
  get (_get_environment_variables ctx self include_os_environ) k
  = match get (env self) k with
    | Some o => o
    | None =>
        match get (base_environment ctx) k with
        | Some v => Some v
        | None => if include_os_environ then get (os_environ ctx) k else None
        end
    end.
Proof.
  intros Hos Hbase Henv. unfold _get_environment_variables.
  assert (Hos' : NoDup (keys (if include_os_environ
                              then os_environ ctx else [])))
    by (destruct include_os_environ; [assumption | constructor]).
  rewrite get_drop_none
    by (repeat apply NoDup_update; constructor).
  rewrite get_update by assumption.
  destruct (get (env self) k) as [[v|]|]; try reflexivity.
  rewrite get_update by (now rewrite keys_lift).
  rewrite get_lift.
  destruct (get (base_environment ctx) k) as [v|]; [reflexivity|].
  cbn [option_map]. rewrite get_update by (now rewrite keys_lift).
  rewrite get_lift.
  destruct include_os_environ; [|reflexivity].
  now destruct (get (os_environ ctx) k).
Qed.

(** *** Lines *)

Lemma split_on_join sep parts :
  parts <> [] ->
  Forall (fun l => count sep l = 0%nat) parts ->
  split_on sep (join (String sep "") parts) = parts.
Proof.
  intros Hne Hall. induction parts as [|x parts IH]; [congruence|].
  inversion Hall as [|? ? Hx Hparts]; subst.
  destruct parts as [|y parts].
  - now apply split_on_clean.
  - change (join (String sep "") (x :: y :: parts))
      with (x ++ String sep (join (String sep "") (y :: parts))).
    rewrite split_on_app by assumption.
    now rewrite IH.
Qed.

Lemma submit_script_some ctx self pre cmd post :
  pre_run self = Some pre -> command self = Some cmd ->
  post_run self = Some post ->
  _submit_script ctx self
  = inr (join LF
           ("#!/bin/bash"
            :: map export_line (_get_environment_variables ctx self false)
            ++ pre
            ++ (conda_prefix (conda_env self) ++ join " " cmd)%string
            :: post)%list).
Proof.
  intros Hpre Hcmd Hpost. unfold _submit_script.
  rewrite Hpre, Hcmd, Hpost. cbn [iterable and_then]. do 2 f_equal.
  cbn [app]. rewrite <- !app_assoc. do 3 f_equal. cbn [app]. f_equal.
  unfold conda_prefix, nonempty_str.
  destruct (conda_env self) as [c|]; [|reflexivity].
  destruct (is_empty c); [reflexivity|]. cbn [negb].
  now rewrite !append_assoc.
Qed.

Lemma submit_script_none ctx self :
  pre_run self = None \/ command self = None \/ post_run self = None ->
  _submit_script ctx self = inl TypeError.
Proof.
  unfold _submit_script.
  destruct (pre_run self), (command self), (post_run self);
    cbn [iterable and_then]; intros [H|[H|H]]; congruence.
Qed.

(** *** kill *)

Lemma kill_of_pid connect self h jobid pid grace_seconds :
  count ":" h = 0%nat ->
  SlurmJob._get_infrastructure_pid h jobid = inr pid ->
  kill connect self pid grace_seconds
  = CLIBasedSlurmBackend.kill (connect (host self)) jobid 30.
Proof.
  intros Hh Hpid. unfold kill.
  now rewrite (JobFacts.round_trip h jobid pid Hh Hpid).
Qed.

End BlockFacts.

(* ================================================================== *)
(** ** Facts about run *)

Module RunFacts.

Import Py Spec PyDict Notions PyFacts DictFacts SlurmJobBlock.

Lemma created_app a b : created (a ++ b) = (created a ++ created b)%list.
Proof. apply flat_map_app. Qed.

Lemma removed_app a b : removed (a ++ b) = (removed a ++ removed b)%list.
Proof. apply flat_map_app. Qed.

Lemma commands_app a b : commands (a ++ b) = (commands a ++ commands b)%list.
Proof. apply flat_map_app. Qed.

Lemma queried_app a b : queried (a ++ b) = (queried a ++ queried b)%list.
Proof. apply flat_map_app. Qed.

Lemma queried_watched t j :
  In j (queried (map Watched t)) -> exists s, In (SlurmJob.Polled j s) t.
Proof.
  induction t as [|e t IH]; [intros []|].
  cbn [map queried flat_map]. intros H. apply in_app_or in H as [H|H].
  - destruct e; try (now destruct H).
    destruct H as [<-|[]]. eexists. left. reflexivity.
  - destruct (IH H) as [s Hs]. exists s. now right.
Qed.

Lemma loop_polls answers :
  forall jobid ps start f w j s,
  In (SlurmJob.Polled j s)
     (SlurmJob.trace (snd (SlurmJob.loop jobid ps start f answers w))) ->
  In (SlurmJob.Polled j s) (SlurmJob.trace w) \/ j = jobid.
Proof.
  induction answers as [|a rest IH]; intros jobid ps start f w j s;
    cbn [SlurmJob.loop]; destruct (SlurmJob.completed f);
    try (now left).
  unfold SlurmJob.backend_status, SlurmJob.iteration, SlurmJob.sleep,
    SlurmJob.emit.
  cbn [SlurmJob.now SlurmJob.trace].
  repeat match goal with
         | |- context [if ?b then _ else _] => destruct b
         end;
    cbn [snd SlurmJob.trace]; intros H;
    try (apply IH in H as [H|H]; [|now right]; cbn [SlurmJob.trace] in H);
    repeat (apply in_app_or in H as [H|H]);
    try (now left);
    destruct H as [H|[]]; try discriminate H;
    injection H as -> _; now right.
Qed.

Lemma watch_polls answers jobid ps clock watched w j :
  SlurmJob._watch_job answers jobid ps
    {| SlurmJob.now := clock; SlurmJob.trace := [] |} = (watched, w) ->
  In j (queried (map Watched (SlurmJob.trace w))) -> j = jobid.
Proof.
  intros E H. apply queried_watched in H as [s H].
  apply (f_equal snd) in E. cbn [snd] in E. rewrite <- E in H.
  unfold SlurmJob._watch_job in H. apply loop_polls in H as [[]|H].
  exact H.
Qed.

Lemma capture_no_query fs wdir kw : queried (capture_output fs wdir kw) = [].
Proof.
  unfold capture_output, fetch.
  destruct (get kw "output") as [[n|]|]; try reflexivity.
  destruct (read fs (path_join wdir n)); try reflexivity.
  destruct (get kw "error") as [[m|]|]; try reflexivity.
  destruct (read fs (path_join wdir m)); reflexivity.
Qed.

Lemma cleanup_no_query fs wdir : queried (cleanup fs wdir) = [].
Proof. unfold cleanup. destruct (rmdir fs wdir); reflexivity. Qed.

Lemma watched_quiet t :
  created (map Watched t) = [] /\ removed (map Watched t) = []
  /\ commands (map Watched t) = [].
Proof. induction t as [|e t IH]; [now repeat split | exact IH]. Qed.

Lemma capture_quiet fs wdir kw :
  created (capture_output fs wdir kw) = []
  /\ removed (capture_output fs wdir kw) = []
  /\ commands (capture_output fs wdir kw) = [].
Proof.
  unfold capture_output, fetch.
  destruct (get kw "output") as [[n|]|]; try (now repeat split).
  destruct (read fs (path_join wdir n)); try (now repeat split).
  destruct (get kw "error") as [[m|]|]; try (now repeat split).
  destruct (read fs (path_join wdir m)); now repeat split.
Qed.

Lemma cleanup_removes fs wdir :
  created (cleanup fs wdir) = [] /\ removed (cleanup fs wdir) = [wdir]
  /\ commands (cleanup fs wdir) = [].
Proof. unfold cleanup. destruct (rmdir fs wdir); now repeat split. Qed.

(** Folding the effect lists of [run] down to what was created, removed
    and run. *)
Ltac tally :=
  rewrite ?created_app, ?removed_app, ?commands_app;
  rewrite ?(proj1 (watched_quiet _)), ?(proj1 (proj2 (watched_quiet _))),
    ?(proj2 (proj2 (watched_quiet _)));
  rewrite ?(proj1 (capture_quiet _ _ _)),
    ?(proj1 (proj2 (capture_quiet _ _ _))),
    ?(proj2 (proj2 (capture_quiet _ _ _)));
  rewrite ?(proj1 (cleanup_removes _ _)),
    ?(proj1 (proj2 (cleanup_removes _ _))),
    ?(proj2 (proj2 (cleanup_removes _ _)));
  cbn [created removed commands flat_map List.app].

(** Every way through [run]. *)
Ltac run_split :=
  unfold run; cbv zeta;
  repeat match goal with
         | |- context [match ?x with _ => _ end] => destruct x eqn:?
         end;
  cbn [outcome effects kwargs_after].

(** The three assignments [run] makes to [slurm_kwargs]. *)
Lemma options_set (kw : dict (option string)) wdir k :
  let kw' := set (set (set kw "chdir" (Some wdir))
                      "output" (Some "output.log"))
                 "error" (Some "error.log") in
  get kw' "chdir" = Some (Some wdir)
  /\ get kw' "output" = Some (Some "output.log")
  /\ get kw' "error" = Some (Some "error.log")
  /\ (k <> "chdir" -> k <> "output" -> k <> "error" -> get kw' k = get kw k).
Proof.
  cbv zeta. repeat split.
  - rewrite !get_set_other by discriminate. apply get_set_same.
  - rewrite get_set_other by discriminate. apply get_set_same.
  - apply get_set_same.
  - intros H1 H2 H3. rewrite !get_set_other by congruence. reflexivity.
Qed.

End RunFacts.

(* ================================================================== *)
(** ** Further properties of the monitor *)

Import Notions MonitorFacts.

(** X1: the first terminal answer after a run of waiting ones decides
    the watch: COMPLETED gives 0, FAILED gives -1, and UNDEFINED, the job
    having been seen, gives 0.  The answers after it are never asked
    for. *)
Theorem watch_first_terminal_decides
    (jobid polling_seconds : Z) (w : world)
    (pre : list answer) (a : answer) (rest : list answer) :
  Forall (fun p => waiting (fst p) = true) pre ->
  (fst a = COMPLETED ->
   _watch_job (pre ++ a :: rest) jobid polling_seconds w
   = (Returned 0,
      emit (LogInfo jobid)
        (snd (backend_status jobid a
                (after_waiting jobid polling_seconds pre w)))))
  /\ (fst a = FAILED ->
      _watch_job (pre ++ a :: rest) jobid polling_seconds w
      = (Returned (-1),
         emit (LogWarn jobid)
           (snd (backend_status jobid a
                   (after_waiting jobid polling_seconds pre w)))))
  /\ (fst a = UNDEFINED -> pre <> [] ->
      _watch_job (pre ++ a :: rest) jobid polling_seconds w
      = (Returned 0,
         emit (LogInfo jobid)
           (snd (backend_status jobid a
                   (after_waiting jobid polling_seconds pre w))))).
Proof.
  intros Hpre. unfold _watch_job.
  rewrite loop_waiting_prefix by (reflexivity || assumption).
  repeat split.
  - intros Ha. apply loop_finished; [now apply seen_after_running | now left].
  - intros Ha. apply loop_failed; [now apply seen_after_running | assumption].
  - intros Ha Hne. apply loop_finished; [now apply seen_after_running|].
    right. split; [assumption|]. destruct pre; [congruence | reflexivity].
Qed.

Lemma watch_first_terminal_decides_witness :
  fst (_watch_job ([(PENDING, (1 # 1)%Q); (UNKNOWN, (1 # 1)%Q)]
                   ++ (UNDEFINED, (1 # 1)%Q) :: [(FAILED, (1 # 1)%Q)])%list
                  7 30 {| now := (0 # 1)%Q; trace := [] |})
  = Returned 0.
Proof.
  exact (f_equal fst
           (proj2 (proj2 (watch_first_terminal_decides 7 30
              {| now := (0 # 1)%Q; trace := [] |}
              [(PENDING, 1 # 1); (UNKNOWN, 1 # 1)]%Q (UNDEFINED, 1 # 1)%Q
              [(FAILED, 1 # 1)%Q]
              ltac:(repeat constructor)))
            eq_refl ltac:(discriminate))).
Defined.

(** X2: while every answer is PENDING, RUNNING, PREEMPTED or UNKNOWN the
    watch does not return, however long that lasts: it has slept once
    per poll, and its clock has advanced by the time the queries took
    plus one poll interval per poll. *)
Theorem watch_keeps_polling
    (jobid polling_seconds : Z) (w : world) (answers : list answer) :
  answers <> [] ->
  Forall (fun p => waiting (fst p) = true) answers ->
  fst (_watch_job answers jobid polling_seconds w)
  = StillPolling {| completed := false; submitted := true |}
  /\ sleeps (trace (snd (_watch_job answers jobid polling_seconds w)))
     = (sleeps (trace w) + List.length answers)%nat
  /\ (now (snd (_watch_job answers jobid polling_seconds w))
      == now w + total_latency answers
         + inject_Z (Z.of_nat (List.length answers)
                     * Z.max 0 polling_seconds))%Q.
Proof.
  intros Hne Hall. unfold _watch_job.
  pose proof (loop_waiting_prefix answers jobid polling_seconds (time w)
                {| completed := false; submitted := false |} [] w
                eq_refl Hall) as E.
  rewrite app_nil_r in E. rewrite E. clear E.
  cbn [loop]. rewrite seen_after_running by reflexivity. cbn [fst snd].
  split; [destruct answers; [congruence | reflexivity]|].
  split; [apply sleeps_after_waiting | apply now_after_waiting].
Qed.

Lemma watch_keeps_polling_witness :
  fst (_watch_job [(PENDING, 1 # 1); (PREEMPTED, 2 # 1)]%Q 7 30
                  {| now := (0 # 1)%Q; trace := [] |})
  = StillPolling {| completed := false; submitted := true |}.
Proof.
  apply (watch_keeps_polling 7 30 {| now := (0 # 1)%Q; trace := [] |}
           [(PENDING, 1 # 1); (PREEMPTED, 2 # 1)]%Q
           ltac:(discriminate) ltac:(repeat constructor)).
Defined.

(** X3: the watch returns 0 only if some poll reported a status other
    than UNDEFINED: a job the scheduler never showed is never reported
    as finished. *)
Theorem watch_success_needs_sighting
    (jobid polling_seconds : Z) (w : world) (answers : list answer) :
  fst (_watch_job answers jobid polling_seconds w) = Returned 0 ->
  Exists (fun a => fst a <> UNDEFINED) answers.
Proof.
  unfold _watch_job. intros H.
  apply loop_zero_seen in H as [H|H]; [discriminate | assumption].
Qed.

Lemma watch_success_needs_sighting_witness :
  Exists (fun a : answer => fst a <> UNDEFINED)
         [(UNDEFINED, 1 # 1); (COMPLETED, 1 # 1)]%Q.
Proof.
  apply (watch_success_needs_sighting 7 30
           {| now := (0 # 1)%Q; trace := [] |}
           [(UNDEFINED, 1 # 1); (COMPLETED, 1 # 1)]%Q).
  reflexivity.
Defined.

(** X4: when the first poll already shows the job, the outcome depends
    on the sequence of statuses alone: not on how long the queries took,
    on the poll interval, on the clock or on the job id. *)
Theorem watch_outcome_ignores_timing
    (jobid jobid' polling_seconds polling_seconds' : Z) (w w' : world)
    (a a' : answer) (rest rest' : list answer) :
  fst a <> UNDEFINED ->
  map fst (a :: rest) = map fst (a' :: rest') ->
  fst (_watch_job (a :: rest) jobid polling_seconds w)
  = fst (_watch_job (a' :: rest') jobid' polling_seconds' w').
Proof.
  intros Ha Hm. unfold _watch_job.
  assert (Ha' : fst a' <> UNDEFINED)
    by (cbn [map] in Hm; injection Hm as <- _; assumption).
  rewrite (loop_first_seen jobid) by (reflexivity || assumption).
  rewrite (loop_first_seen jobid') by (reflexivity || assumption).
  now apply loop_status_only.
Qed.

Lemma watch_outcome_ignores_timing_witness :
  fst (_watch_job [(RUNNING, 1 # 1); (FAILED, 1 # 1)]%Q 7 30
                  {| now := (0 # 1)%Q; trace := [] |})
  = fst (_watch_job [(RUNNING, 500 # 1); (FAILED, 0 # 1)]%Q 8 1
                    {| now := (99 # 1)%Q; trace := [] |}).
Proof.
  apply (watch_outcome_ignores_timing 7 8 30 1
           {| now := (0 # 1)%Q; trace := [] |}
           {| now := (99 # 1)%Q; trace := [] |}
           (RUNNING, 1 # 1)%Q (RUNNING, 500 # 1)%Q
           [(FAILED, 1 # 1)%Q] [(FAILED, 0 # 1)%Q]
           ltac:(discriminate) eq_refl).
Defined.

Lemma total_latency_nonneg (us : list answer) :
  Forall (fun u => fst u = UNDEFINED /\ (0 <= snd u)%Q) us ->
  (0 <= total_latency us)%Q.
Proof.
  induction 1 as [|u us [_ Hu] _ IH]; [cbn; lra|].
  change (total_latency (u :: us)) with (snd u + total_latency us)%Q. lra.
Qed.

Lemma loop_skips_unregistered (us : list answer) :
  forall jobid ps start f a rest w,
  completed f = false -> submitted f = false ->
  Forall (fun u => fst u = UNDEFINED /\ (0 <= snd u)%Q) us ->
  (now w - start + total_latency us < inject_Z ps)%Q ->
  fst a <> UNDEFINED ->
  fst (loop jobid ps start f (us ++ a :: rest) w)
  = fst (loop jobid ps start f (a :: rest) w).
Proof.
  induction us as [|u us IH]; intros jobid ps start f a rest w Hc Hs Hus Ht Ha;
    [reflexivity|].
  inversion Hus as [|? ? [Hu Hl] Hus']; subst.
  pose proof (total_latency_nonneg us Hus') as Hpos.
  change (total_latency (u :: us)) with (snd u + total_latency us)%Q in Ht.
  change ((u :: us) ++ a :: rest)%list with (u :: (us ++ a :: rest))%list.
  rewrite loop_never_seen_early; try assumption.
  - rewrite IH; try assumption.
    + rewrite (loop_first_seen jobid ps start f a rest w) by assumption.
      rewrite loop_first_seen by assumption.
      now apply loop_status_only.
    + cbn [emit backend_status snd now]. lra.
  - apply Qltb_lt. unfold time. cbn [backend_status snd emit now]. lra.
Qed.

(** X5: polls that report UNDEFINED before the job was ever seen, and
    that all fall inside the grace window, leave no mark on the outcome:
    the watch ends as if it had started at the first poll that shows the
    job. *)
Theorem watch_tolerates_registration_delay
    (jobid polling_seconds : Z) (w : world)
    (us : list answer) (a : answer) (rest : list answer) :
  Forall (fun u => fst u = UNDEFINED /\ (0 <= snd u)%Q) us ->
  (total_latency us < inject_Z polling_seconds)%Q ->
  fst a <> UNDEFINED ->
  fst (_watch_job (us ++ a :: rest) jobid polling_seconds w)
  = fst (_watch_job (a :: rest) jobid polling_seconds w).
Proof.
  intros Hus Ht Ha. unfold _watch_job.
  apply loop_skips_unregistered; try assumption; try reflexivity.
  unfold time. lra.
Qed.

Lemma watch_tolerates_registration_delay_witness :
  fst (_watch_job ([(UNDEFINED, (5 # 1)%Q); (UNDEFINED, (20 # 1)%Q)]
                   ++ (RUNNING, (1 # 1)%Q) :: [(COMPLETED, (1 # 1)%Q)])%list
                  7 30 {| now := (0 # 1)%Q; trace := [] |})
  = Returned 0.
Proof.
  exact (eq_trans
           (watch_tolerates_registration_delay 7 30
              {| now := (0 # 1)%Q; trace := [] |}
              [(UNDEFINED, (5 # 1)%Q); (UNDEFINED, (20 # 1)%Q)]
              (RUNNING, (1 # 1)%Q) [(COMPLETED, (1 # 1)%Q)]
              ltac:(repeat constructor; discriminate)
              ltac:(reflexivity) ltac:(discriminate))
           eq_refl).
Defined.

(* ================================================================== *)
(** ** Further properties of the backend *)

Import BackendMore.

(** X6: what the remote executor raises comes out of [submit], [kill]
    and [status] unchanged.  Once the command for a job id is rendered,
    [kill] and [status] raise exactly what the executor raises and in no
    other case, so a [status] query does raise when the connection or
    the command fails, the [try] block covering the parsing only.  The
    one other exception of [kill] and [status] is the one of rendering
    the job id, raised before the executor is used; job ids below
    10^4300 in absolute value always render. *)
Theorem remote_errors_propagate
    (run : string -> option string -> Z -> Py.result SSHCompletedProcess)
    (e : Py.exn) :
  (forall slurm_kwargs run_script grace_seconds,
     run (_submit_command slurm_kwargs) run_script grace_seconds = inl e ->
     submit run slurm_kwargs run_script grace_seconds = inl e)
  /\ (forall jobid grace_seconds cmd,
     _kill_command jobid = inr cmd ->
     (run cmd None grace_seconds = inl e <->
      CLIBasedSlurmBackend.kill run jobid grace_seconds = inl e))
  /\ (forall jobid grace_seconds cmd,
     _status_command jobid = inr cmd ->
     (run cmd None grace_seconds = inl e <->
      status run jobid grace_seconds = inl e))
  /\ (forall jobid grace_seconds,
     _kill_command jobid = inl e ->
     forall run', CLIBasedSlurmBackend.kill run' jobid grace_seconds = inl e)
  /\ (forall jobid grace_seconds,
     _status_command jobid = inl e ->
     forall run', status run' jobid grace_seconds = inl e)
  /\ (forall jobid,
     Z.abs jobid < 10 ^ max_str_digits ->
     _kill_command jobid = inr ("scancel $" ++ decimal jobid)
     /\ _status_command jobid
        = inr ("squeue --job=" ++ decimal jobid
               ++ " --Format=State,exit_code --noheader")).
Proof.
  split; [|split; [|split; [|split; [|split]]]].
  - intros kw script g H. unfold submit, _run_remote_command.
    now rewrite H.
  - intros jobid g cmd Hcmd.
    unfold CLIBasedSlurmBackend.kill, _run_remote_command.
    rewrite Hcmd. cbn [bind].
    destruct (run cmd None g); cbn [bind ret];
      split; intros H; (discriminate H || (inversion H; reflexivity)).
  - intros jobid g cmd Hcmd. unfold status, _run_remote_command.
    rewrite Hcmd. cbn [bind].
    destruct (run cmd None g) as [e'|r]; cbn [bind ret];
      [split; intros H; inversion H; reflexivity|].
    destruct (status_of_result_total r) as [st ->]. split; discriminate.
  - intros jobid g H run'. unfold CLIBasedSlurmBackend.kill.
    now rewrite H.
  - intros jobid g H run'. unfold status. now rewrite H.
  - intros jobid H. unfold _kill_command, _status_command.
    now rewrite (str_small jobid H).
Qed.

(** X7: when the query exits with status 0 and stdout holds a first
    word, whitespace, and a second word, with blanks allowed before and
    anything word-separated after, the status is the one the first word
    stands for; what follows it is not looked at. *)
Theorem status_reads_first_word
    (r : SSHCompletedProcess) (pad0 w1 : string) (c1 : ascii)
    (pad1 w2 tail : string) :
  exit_status r = 0 ->
  stdout r = pad0 ++ w1 ++ String c1 (pad1 ++ w2 ++ tail) ->
  all_chars isspace pad0 = true ->
  all_chars nonspace w1 = true -> w1 <> "" ->
  isspace c1 = true -> all_chars isspace pad1 = true ->
  all_chars nonspace w2 = true -> w2 <> "" ->
  blank_start tail = true ->
  status_of_result r = inr (status_of_token w1).
Proof.
  intros H0 Hout Hp0 Hw1 Hn1 Hc1 Hp1 Hw2 Hn2 Ht.
  destruct (split_word_tail w2 tail Hw2 Hn2 Ht) as [rest Hrest].
  apply (status_of_result_words r w1 w2 rest H0).
  rewrite Hout, split_blank by assumption.
  rewrite split_word by assumption.
  now rewrite split_blank, Hrest by assumption.
Qed.

Lemma status_reads_first_word_witness :
  status_of_result {| exit_status := 0;
                      stdout := " " ++ "RUNNING"
                                ++ String " " ("   " ++ "0:0" ++ LF_tail);
                      stderr := "" |}
  = inr RUNNING.
Proof.
  apply (status_reads_first_word _ " " "RUNNING" " " "   " "0:0" LF_tail);
    try reflexivity; discriminate.
Defined.

(** X8: distinct job ids never share a status command or a kill
    command, and distinct (colon-free host, job id) pairs never share a
    handle. *)
Theorem commands_and_handles_are_injective :
  (forall n m cmd,
     _status_command n = inr cmd -> _status_command m = inr cmd -> n = m)
  /\ (forall n m cmd,
     _kill_command n = inr cmd -> _kill_command m = inr cmd -> n = m)
  /\ (forall h h' n m pid,
        count ":" h = 0%nat -> count ":" h' = 0%nat ->
        _get_infrastructure_pid h n = inr pid ->
        _get_infrastructure_pid h' m = inr pid ->
        h = h' /\ n = m).
Proof.
  split; [|split].
  - intros n m cmd Hn Hm. unfold _status_command in Hn, Hm.
    destruct (str n) as [|sn] eqn:En; [discriminate|].
    destruct (str m) as [|sm] eqn:Em; [discriminate|].
    cbn [bind ret] in Hn, Hm. rewrite <- Hn in Hm.
    injection Hm as Hm.
    apply append_inv_tail in Hm. subst sm.
    exact (str_inj n m sn En Em).
  - intros n m cmd Hn Hm. unfold _kill_command in Hn, Hm.
    destruct (str n) as [|sn] eqn:En; [discriminate|].
    destruct (str m) as [|sm] eqn:Em; [discriminate|].
    cbn [bind ret] in Hn, Hm. rewrite <- Hn in Hm.
    injection Hm as Hm. subst sm.
    exact (str_inj n m sn En Em).
  - intros h h' n m pid Hh Hh' Hn Hm.
    pose proof (round_trip h n pid Hh Hn) as E.
    rewrite (round_trip h' m pid Hh' Hm) in E. now inversion E.
Qed.

Lemma commands_and_handles_are_injective_witness :
  _kill_command 4711 = inr "scancel $4711"
  /\ (forall m, _kill_command m = inr "scancel $4711" -> 4711 = m)
  /\ _get_infrastructure_pid "login.hpc" 4711 = inr "login.hpc:4711"
  /\ (forall h m,
        count ":" h = 0%nat ->
        _get_infrastructure_pid h m = inr "login.hpc:4711" ->
        "login.hpc" = h /\ 4711 = m).
Proof.
  split; [reflexivity|]. split; [|split; [reflexivity|]].
  - intros m. exact (proj1 (proj2 commands_and_handles_are_injective)
                       4711 m "scancel $4711" eq_refl).
  - intros h m Hh.
    exact (proj2 (proj2 commands_and_handles_are_injective)
             "login.hpc" h 4711 m "login.hpc:4711" eq_refl Hh eq_refl).
Defined.

(* ================================================================== *)
(** ** Properties of the block's methods *)

Import PyDict SlurmJobBlock DictFacts BlockFacts RunFacts.

(** X9: [SlurmJob.kill] on a handle that [_get_infrastructure_pid]
    made for job id [jobid] runs the backend's kill command for [jobid]
    on the block's own host with the backend's default timeout of 30:
    the host named in the handle and the [grace_seconds] passed in play
    no part.  On a handle that does not decode it raises before any
    connection is used. *)
Theorem kill_by_handle (connect : connection) (self : block) :
  (forall h jobid pid grace_seconds,
     count ":" h = 0%nat ->
     _get_infrastructure_pid h jobid = inr pid ->
     SlurmJobBlock.kill connect self pid grace_seconds
     = (_ <- connect (host self) ("scancel $" ++ decimal jobid) None 30 ;;
        ret tt))
  /\ (forall infrastructure_pid grace_seconds e,
     _parse_infrastructure_pid infrastructure_pid = inl e ->
     forall connect' : connection,
     SlurmJobBlock.kill connect' self infrastructure_pid grace_seconds
     = inl e).
Proof.
  split.
  - intros h jobid pid g Hh Hpid.
    rewrite (kill_of_pid connect self h jobid pid g Hh Hpid).
    rewrite kill_issues.
    unfold _get_infrastructure_pid in Hpid.
    unfold _kill_command.
    destruct (str jobid) as [|s] eqn:E; [discriminate|].
    apply str_inr in E as [-> _]. reflexivity.
  - intros pid g e H connect'. unfold SlurmJobBlock.kill. now rewrite H.
Qed.

Lemma kill_by_handle_witness :
  SlurmJobBlock.kill Sample.connect Sample.job "other.host:77" 5
  = inr tt
  /\ SlurmJobBlock.kill Sample.connect Sample.job "77" 5 = inl ValueError.
Proof.
  split.
  - exact (eq_trans
             (proj1 (kill_by_handle Sample.connect Sample.job)
                "other.host" 77 "other.host:77" 5 eq_refl eq_refl)
             eq_refl).
  - apply (proj2 (kill_by_handle Sample.connect Sample.job) "77" 5
             ValueError eq_refl).
Defined.

(** X10: a variable of the job's environment takes its value from the
    block's [env] when [env] has the key, and is dropped when that value
    is None; otherwise from the base environment; otherwise, if asked
    for, from the OS environment.  No key occurs twice. *)
Theorem environment_priority
    (ctx : context) (self : block) (include_os_environ : bool)
    (k : string) :
  NoDup (keys (os_environ ctx)) ->
  NoDup (keys (base_environment ctx)) ->
  NoDup (keys (env self)) ->
  get (_get_environment_variables ctx self include_os_environ) k
  = match get (env self) k with
    | Some o => o
    | None =>
        match get (base_environment ctx) k with
        | Some v => Some v
        | None => if include_os_environ then get (os_environ ctx) k else None
        end
    end
  /\ NoDup (keys (_get_environment_variables ctx self include_os_environ)).
Proof.
  intros Hos Hbase Henv. split; [now apply envvars_get | apply envvars_nodup].
Qed.

Lemma environment_priority_witness :
  get (_get_environment_variables Sample.ctx Sample.job true)
      "PREFECT_API_URL" = None
  /\ get (_get_environment_variables Sample.ctx Sample.job true) "PATH"
     = Some "/usr/bin"
  /\ get (_get_environment_variables Sample.ctx Sample.job false) "HOME"
     = Some "/tmp".
Proof.
  assert (Hos : NoDup (keys (os_environ Sample.ctx)))
    by (repeat constructor; cbn; intuition discriminate).
  assert (Hbase : NoDup (keys (base_environment Sample.ctx)))
    by (repeat constructor; cbn; intuition discriminate).
  assert (Henv : NoDup (keys (env Sample.job)))
    by (repeat constructor; cbn; intuition discriminate).
  exact (conj
    (proj1 (environment_priority Sample.ctx Sample.job true
              "PREFECT_API_URL" Hos Hbase Henv))
    (conj
      (proj1 (environment_priority Sample.ctx Sample.job true
                "PATH" Hos Hbase Henv))
      (proj1 (environment_priority Sample.ctx Sample.job false
                "HOME" Hos Hbase Henv)))).
Defined.

(** X11: when [pre_run], [command] and [post_run] are lists and no line
    holds a line break, the submit script read line by line is: the
    shebang, one export line per environment variable, the pre-run
    lines, the command (after [conda run -n <env>] when a conda
    environment is named), the post-run lines. *)
Theorem submit_script_lines
    (ctx : context) (self : block) (pre cmd post lines : list string) :
  pre_run self = Some pre -> command self = Some cmd ->
  post_run self = Some post ->
  lines = ("#!/bin/bash"
           :: map export_line (_get_environment_variables ctx self false)
           ++ pre
           ++ (conda_prefix (conda_env self) ++ join " " cmd)%string
           :: post)%list ->
  Forall (fun l => count "010" l = 0%nat) lines ->
  exists script,
    _submit_script ctx self = inr script
    /\ split_on "010" script = lines.
Proof.
  intros Hpre Hcmd Hpost -> Hall.
  rewrite (submit_script_some ctx self pre cmd post Hpre Hcmd Hpost).
  eexists. split; [reflexivity|].
  apply split_on_join; [discriminate | assumption].
Qed.

Lemma submit_script_lines_witness :
  exists script,
    _submit_script Sample.ctx Sample.job = inr script
    /\ split_on "010" script
       = ["#!/bin/bash"; "export PATH=/usr/bin";
          "export PREFECT__FLOW_RUN_ID=run-1"; "export HOME=/tmp";
          "module load python";
          "conda run -n flows python -m prefect.engine"].
Proof.
  apply (submit_script_lines Sample.ctx Sample.job
           ["module load python"] ["python"; "-m"; "prefect.engine"] []
           _ eq_refl eq_refl eq_refl eq_refl).
  repeat constructor.
Defined.

(** X12: [_submit_script] returns a script exactly when [pre_run],
    [command] and [post_run] are all lists; if one of them is None it
    raises TypeError. *)
Theorem submit_script_needs_lists (ctx : context) (self : block) :
  ((exists script, _submit_script ctx self = inr script) <->
   pre_run self <> None /\ command self <> None /\ post_run self <> None)
  /\ (pre_run self = None \/ command self = None \/ post_run self = None ->
      _submit_script ctx self = inl TypeError).
Proof.
  split; [|apply submit_script_none]. split.
  - intros [script H].
    destruct (pre_run self) eqn:E1, (command self) eqn:E2,
      (post_run self) eqn:E3;
      try (repeat split; discriminate);
      rewrite submit_script_none in H by (rewrite ?E1, ?E2, ?E3; tauto);
      discriminate.
  - intros (H1 & H2 & H3).
    destruct (pre_run self) as [pre|] eqn:E1; [|congruence].
    destruct (command self) as [cmd|] eqn:E2; [|congruence].
    destruct (post_run self) as [post|] eqn:E3; [|congruence].
    exact (ex_intro _ _ (submit_script_some ctx self pre cmd post E1 E2 E3)).
Qed.

(* ================================================================== *)
(** ** Properties of run *)

(** X13: [run] raises before it touches anything when the command is
    missing or empty (ValueError), when the environment holds no
    PREFECT__FLOW_RUN_ID (KeyError), and when the file system session
    cannot be opened. *)
Theorem run_stops_before_any_effect
    (ctx : context) (fs : filesystem) (connect : connection)
    (answers : list answer) (clock : Q) (self : block) (task_status : bool) :
  (command self = None \/ command self = Some [] ->
   run ctx fs connect answers clock self task_status
   = {| outcome := RunRaised (Raised ValueError); effects := [];
        kwargs_after := slurm_kwargs self |})
  /\ (forall c cs,
      command self = Some (c :: cs) ->
      get (_get_environment_variables ctx self true) "PREFECT__FLOW_RUN_ID"
      = None ->
      run ctx fs connect answers clock self task_status
      = {| outcome := RunRaised (KeyError "PREFECT__FLOW_RUN_ID");
           effects := []; kwargs_after := slurm_kwargs self |})
  /\ (forall c cs flow_run_id e,
      command self = Some (c :: cs) ->
      get (_get_environment_variables ctx self true) "PREFECT__FLOW_RUN_ID"
      = Some flow_run_id ->
      session fs 0 = Some e ->
      run ctx fs connect answers clock self task_status
      = {| outcome := RunRaised (Raised e); effects := [];
           kwargs_after := slurm_kwargs self |}).
Proof.
  split; [|split].
  - intros [H|H]; unfold run; now rewrite H.
  - intros c cs Hc Hg. unfold run, item. now rewrite Hc, Hg.
  - intros c cs flow e Hc Hg Hs. unfold run, item. now rewrite Hc, Hg, Hs.
Qed.

Lemma run_stops_before_any_effect_witness :
  run Sample.ctx Sample.fs Sample.connect Sample.answers (0 # 1)%Q
      Sample.idle true
  = {| outcome := RunRaised (Raised ValueError); effects := [];
       kwargs_after := slurm_kwargs Sample.idle |}.
Proof.
  apply (proj1 (run_stops_before_any_effect Sample.ctx Sample.fs
                  Sample.connect Sample.answers (0 # 1)%Q Sample.idle true)).
  right. reflexivity.
Defined.

(** X14: with [slurm_kwargs] left at None, its default, [run] always
    raises: it never submits a job and never removes a directory, and
    when it got as far as creating the working directory the exception
    is the TypeError of the assignment to [slurm_kwargs], with the
    directory left behind. *)
Theorem run_without_options
    (ctx : context) (fs : filesystem) (connect : connection)
    (answers : list answer) (clock : Q) (self : block) (task_status : bool) :
  slurm_kwargs self = None ->
  exists e,
    outcome (run ctx fs connect answers clock self task_status)
    = RunRaised e
    /\ commands (effects (run ctx fs connect answers clock self task_status))
       = []
    /\ removed (effects (run ctx fs connect answers clock self task_status))
       = []
    /\ (forall wdir,
          created (effects (run ctx fs connect answers clock self
                                task_status)) = [wdir] ->
          mkdir fs wdir = None -> e = TypeError).
Proof.
  intros Hkw. unfold run. rewrite Hkw. cbv zeta.
  repeat match goal with
         | |- context [match ?x with _ => _ end] => destruct x eqn:?
         end;
    cbn [outcome effects kwargs_after created removed commands flat_map List.app];
    eexists; (split; [reflexivity|]); (split; [reflexivity|]);
    (split; [reflexivity|]); intros wdir Hc Hm;
    try discriminate; try reflexivity.
  all: injection Hc as <-; congruence.
Qed.

Lemma run_without_options_witness :
  exists e,
    outcome (run Sample.ctx Sample.fs Sample.connect Sample.answers
                 (0 # 1)%Q Sample.bare true) = RunRaised e
    /\ commands (effects (run Sample.ctx Sample.fs Sample.connect
                              Sample.answers (0 # 1)%Q Sample.bare true))
       = []
    /\ removed (effects (run Sample.ctx Sample.fs Sample.connect
                             Sample.answers (0 # 1)%Q Sample.bare true))
       = []
    /\ (forall wdir,
          created (effects (run Sample.ctx Sample.fs Sample.connect
                                Sample.answers (0 # 1)%Q Sample.bare true))
          = [wdir] ->
          mkdir Sample.fs wdir = None -> e = TypeError).
Proof.
  apply (run_without_options Sample.ctx Sample.fs Sample.connect
           Sample.answers (0 # 1)%Q Sample.bare true eq_refl).
Defined.

(** X15: [run] submits at most once.  Whenever it hands a submission
    to the executor it is exactly one, the submit command on the block's
    own host with the submit script on stdin, rendered from the block's
    options after [chdir] was set to the one directory [run] created,
    [output] to output.log and [error] to error.log, whatever the user
    had put under these keys; every other option is the user's.  The
    other remote commands of [run] are the status queries of the watch,
    one per poll, and each of them asks for the job id that submission
    returned. *)
Theorem run_submits_with_options
    (ctx : context) (fs : filesystem) (connect : connection)
    (answers : list answer) (clock : Q) (self : block) (task_status : bool)
    (kw : dict (option string)) :
  slurm_kwargs self = Some kw ->
  commands (effects (run ctx fs connect answers clock self task_status))
  <> [] ->
  exists wdir script kw',
    created (effects (run ctx fs connect answers clock self task_status))
    = [wdir]
    /\ commands (effects (run ctx fs connect answers clock self task_status))
       = [(host self, _submit_command kw', Some script)]
    /\ _submit_script ctx self = inr script
    /\ kwargs_after (run ctx fs connect answers clock self task_status)
       = Some kw'
    /\ get kw' "chdir" = Some (Some wdir)
    /\ get kw' "output" = Some (Some "output.log")
    /\ get kw' "error" = Some (Some "error.log")
    /\ (forall k, k <> "chdir" -> k <> "output" -> k <> "error" ->
                  get kw' k = get kw k)
    /\ (forall j,
          In j (queried (effects (run ctx fs connect answers clock self
                                      task_status))) ->
          submit (connect (host self)) kw' (Some script) 30 = inr j).
Proof.
  intros Hkw. unfold run. rewrite Hkw. cbv zeta.
  repeat match goal with
         | |- context [match ?x with _ => _ end] => destruct x eqn:?
         end;
    cbn [outcome effects kwargs_after]; tally; intros Hne;
    try congruence;
    do 3 eexists;
    (split; [reflexivity|]); (split; [reflexivity|]);
    (split; [reflexivity || eassumption|]); (split; [reflexivity|]);
    (split; [apply (options_set kw _ "")|]);
    (split; [apply (options_set kw _ "")|]);
    (split; [apply (options_set kw _ "")|]);
    (split; [intros k; apply (options_set kw _ k)|]);
    intros j Hj; unfold queried in Hj; cbn [flat_map List.app] in Hj;
    rewrite ?flat_map_app in Hj;
    repeat (apply in_app_or in Hj as [Hj|Hj]);
    try (now destruct Hj);
    match type of Hj with
    | In _ (flat_map _ ?l) => change (In j (queried l)) in Hj
    end;
    first [ rewrite capture_no_query in Hj; now destruct Hj
          | rewrite cleanup_no_query in Hj; now destruct Hj
          | match goal with
            | E : _watch_job _ _ _ _ = _ |- _ =>
                rewrite (watch_polls _ _ _ _ _ _ j E Hj)
            end;
            assumption ].
Qed.

Lemma run_submits_with_options_witness :
  exists wdir script kw',
    created (effects (run Sample.ctx Sample.fs Sample.connect Sample.answers
                          (0 # 1)%Q Sample.job true)) = [wdir]
    /\ commands (effects (run Sample.ctx Sample.fs Sample.connect
                              Sample.answers (0 # 1)%Q Sample.job true))
       = [(host Sample.job, _submit_command kw', Some script)]
    /\ _submit_script Sample.ctx Sample.job = inr script
    /\ kwargs_after (run Sample.ctx Sample.fs Sample.connect Sample.answers
                         (0 # 1)%Q Sample.job true) = Some kw'
    /\ get kw' "chdir" = Some (Some wdir)
    /\ get kw' "output" = Some (Some "output.log")
    /\ get kw' "error" = Some (Some "error.log")
    /\ (forall k, k <> "chdir" -> k <> "output" -> k <> "error" ->
                  get kw' k
                  = get [("nodes", Some "1"); ("output", Some "mine.log")] k)
    /\ (forall j,
          In j (queried (effects (run Sample.ctx Sample.fs Sample.connect
                                      Sample.answers (0 # 1)%Q Sample.job
                                      true))) ->
          submit (Sample.connect (host Sample.job)) kw' (Some script) 30
          = inr j).
Proof.
  apply (run_submits_with_options Sample.ctx Sample.fs Sample.connect
           Sample.answers (0 # 1)%Q Sample.job true
           [("nodes", Some "1"); ("output", Some "mine.log")] eq_refl).
  vm_compute. discriminate.
Defined.

(** X16: when [run] returns, the status code is 0 or -1 and the
    identifier is the handle of the block's host and the job id the
    submission gave; for a host name without a colon the handle decodes
    back to that pair. *)
Theorem run_result_is_a_handle
    (ctx : context) (fs : filesystem) (connect : connection)
    (answers : list answer) (clock : Q) (self : block) (task_status : bool)
    (identifier : string) (status_code : Z) :
  outcome (run ctx fs connect answers clock self task_status)
  = RunReturned identifier status_code ->
  (status_code = 0 \/ status_code = -1)
  /\ exists jobid,
       _get_infrastructure_pid (host self) jobid = inr identifier
       /\ (count ":" (host self) = 0%nat ->
           _parse_infrastructure_pid identifier = inr (host self, jobid)).
Proof.
  unfold run. cbv zeta.
  repeat match goal with
         | |- context [match ?x with _ => _ end] => destruct x eqn:?
         end;
    cbn [outcome]; intros H; try discriminate; injection H as <- <-; subst.
  all: split;
    [ match goal with
      | E : _watch_job _ _ _ _ = (Returned ?c, _) |- _ =>
          apply (f_equal fst) in E; unfold _watch_job in E;
          exact (loop_codes _ _ _ _ _ _ _ E)
      end
    | eexists; split;
      [eassumption | intros Hc; eapply round_trip; eassumption] ].
Qed.

Lemma run_result_is_a_handle_witness :
  (0 = 0 \/ 0 = -1)
  /\ exists jobid,
       _get_infrastructure_pid (host Sample.job) jobid = inr "login.hpc:77"
       /\ (count ":" (host Sample.job) = 0%nat ->
           _parse_infrastructure_pid "login.hpc:77"
           = inr (host Sample.job, jobid)).
Proof.
  apply (run_result_is_a_handle Sample.ctx Sample.fs Sample.connect
           Sample.answers (0 # 1)%Q Sample.job true "login.hpc:77" 0).
  reflexivity.
Defined.

(** X17: [run] calls [rmdir] exactly when it returns with
    [retain_working_directory] not set, and then on the one directory it
    created; when it raises or is still watching, nothing is removed, so
    a run that fails after creating the directory leaves it behind. *)
Theorem run_cleans_up_only_on_return
    (ctx : context) (fs : filesystem) (connect : connection)
    (answers : list answer) (clock : Q) (self : block) (task_status : bool) :
  removed (effects (run ctx fs connect answers clock self task_status))
  = match outcome (run ctx fs connect answers clock self task_status) with
    | RunReturned _ _ =>
        if is_true (retain_working_directory self) then []
        else created (effects (run ctx fs connect answers clock self
                                   task_status))
    | _ => []
    end.
Proof.
  unfold run. cbv zeta.
  destruct (is_true (retain_working_directory self)) eqn:Hretain;
    cbn [negb];
    repeat (cbn [outcome effects kwargs_after];
            match goal with
            | |- context [match ?x with _ => _ end] => destruct x eqn:?
            end);
    cbn [outcome effects kwargs_after]; tally; reflexivity.
Qed.

(** X18: what happens to the log files and to the clean-up never
    reaches the caller: two file systems that agree on opening sessions
    and on creating directories give the same outcome, the same remote
    command and the same options, however reading and removing go. *)
Theorem run_outcome_ignores_logs_and_cleanup
    (ctx : context) (fs fs' : filesystem) (connect : connection)
    (answers : list answer) (clock : Q) (self : block) (task_status : bool) :
  (forall n, session fs n = session fs' n) ->
  (forall path, mkdir fs path = mkdir fs' path) ->
  outcome (run ctx fs connect answers clock self task_status)
  = outcome (run ctx fs' connect answers clock self task_status)
  /\ kwargs_after (run ctx fs connect answers clock self task_status)
     = kwargs_after (run ctx fs' connect answers clock self task_status)
  /\ commands (effects (run ctx fs connect answers clock self task_status))
     = commands (effects (run ctx fs' connect answers clock self
                              task_status))
  /\ created (effects (run ctx fs connect answers clock self task_status))
     = created (effects (run ctx fs' connect answers clock self
                             task_status)).
Proof.
  intros Hs Hm. unfold run. cbv zeta.
  rewrite !Hs.
  repeat (cbn [outcome effects kwargs_after];
          match goal with
          | |- context [match ?x with _ => _ end] => destruct x eqn:?
          end);
    cbn [outcome effects kwargs_after]; tally;
    repeat match goal with
           | H : mkdir fs _ = _ |- _ => rewrite Hm in H
           end;
    try congruence; repeat split; congruence.
Qed.

Lemma run_outcome_ignores_logs_and_cleanup_witness :
  outcome (run Sample.ctx Sample.fs Sample.connect Sample.answers
               (0 # 1)%Q Sample.job true)
  = outcome (run Sample.ctx Sample.broken_fs Sample.connect Sample.answers
                 (0 # 1)%Q Sample.job true).
Proof.
  apply (run_outcome_ignores_logs_and_cleanup Sample.ctx Sample.fs
           Sample.broken_fs Sample.connect Sample.answers (0 # 1)%Q
           Sample.job true (fun _ => eq_refl) (fun _ => eq_refl)).
Defined.

(** X19: a job id that [submit] returns is below the digit limit, so
    rendering it never fails: its kill command, its status command and
    its handle are defined, and the handle of a host name without a
    colon decodes back to the host and the id. *)
Theorem submitted_ids_render
    (run : string -> option string -> Z -> Py.result SSHCompletedProcess)
    (slurm_kwargs : list (string * option string))
    (run_script : option string) (grace_seconds : Z) (jobid : Z) :
  submit run slurm_kwargs run_script grace_seconds = inr jobid ->
  Z.abs jobid < 10 ^ max_str_digits
  /\ _kill_command jobid = inr ("scancel $" ++ decimal jobid)
  /\ _status_command jobid
     = inr ("squeue --job=" ++ decimal jobid
            ++ " --Format=State,exit_code --noheader")
  /\ (forall h,
        _get_infrastructure_pid h jobid = inr (h ++ ":" ++ decimal jobid)
        /\ (count ":" h = 0%nat ->
            _parse_infrastructure_pid (h ++ ":" ++ decimal jobid)
            = inr (h, jobid))).
Proof.
  intros H.
  assert (Hb : Z.abs jobid < 10 ^ max_str_digits).
  { unfold submit in H.
    destruct (_run_remote_command _ _ _ _) as [e|r]; [discriminate|].
    cbn [bind] in H. unfold jobid_of_result in H.
    exact (int_bounded _ _ H). }
  split; [exact Hb|].
  unfold _kill_command, _status_command.
  rewrite (str_small jobid Hb). cbn [bind ret].
  split; [reflexivity|]. split; [reflexivity|].
  intros h.
  assert (Hp : _get_infrastructure_pid h jobid
               = inr (h ++ ":" ++ decimal jobid))
    by (unfold _get_infrastructure_pid; now rewrite (str_small jobid Hb)).
  split; [exact Hp|]. intros Hh. exact (round_trip h jobid _ Hh Hp).
Qed.

Lemma submitted_ids_render_witness :
  Z.abs 4711 < 10 ^ max_str_digits
  /\ _kill_command 4711 = inr ("scancel $" ++ decimal 4711)
  /\ _status_command 4711
     = inr ("squeue --job=" ++ decimal 4711
            ++ " --Format=State,exit_code --noheader")
  /\ (forall h,
        _get_infrastructure_pid h 4711 = inr (h ++ ":" ++ decimal 4711)
        /\ (count ":" h = 0%nat ->
            _parse_infrastructure_pid (h ++ ":" ++ decimal 4711)
            = inr (h, 4711))).
Proof.
  apply (submitted_ids_render
           (fun _ _ _ => inr {| exit_status := 0;
                                stdout := "4711" ++ String "010" "";
                                stderr := "" |})
           [("nodes", Some "1")] (Some "#!/bin/bash") 30 4711).
  reflexivity.
Defined.
